(** * PlantID: a shallow embedding of [src/PlantIDApp/App.tsx]

    The React component [PlantIDApp] is modelled as explicit state passing:
    the [useState] cells, the SQLite database behind the module-level handle
    [db] and the sequence of calls made to the outside world (console, alerts,
    camera, picker) form one record [App]; every handler of the component is
    a computation in a small state-and-exception monad over that record.

    Modelling choices, stated once:
    - JavaScript numbers are IEEE 754 binary64 values.  A number is held as
      the rational it denotes, and every arithmetic operation and every
      decimal literal is rounded to the nearest binary64 value, ties to even
      ([double]).  The numbers of this component stay below 32, so Infinity
      and NaN do not arise.  The results of [Math.random()] are inputs
      [Draws], with the contract [0 <= r < 1] (and, where it matters, that
      the draw is a binary64 value) as explicit hypotheses.
    - [CURRENT_TIMESTAMP] is the number of seconds on the device clock
      (the text form SQLite stores has one-second resolution and orders the
      same way); the clock reading is an input of every INSERT.
    - a call that may throw (SQLite, camera, picker) takes its outcome as an
      input, so that every [catch] block of the source is reachable. *)

From Stdlib Require Import List String ZArith QArith Qround Lia Lqa Bool.
From Stdlib Require Import Permutation Sorted Floats.
Import ListNotations.

#[local] Set Warnings "-inexact-float".

Local Open Scope string_scope.
Local Open Scope Z_scope.

(** ** Data model *)

(** [SPECIES_NAMES], the twenty labels of the source. *)
Definition SPECIES_NAMES : list string :=
  [ "Species_1"; "Species_2"; "Species_3"; "Species_4"; "Species_5";
    "Species_6"; "Species_7"; "Species_8"; "Species_9"; "Species_10";
    "Species_11"; "Species_12"; "Species_13"; "Species_14"; "Species_15";
    "Species_16"; "Species_17"; "Species_18"; "Species_19"; "Species_20" ].

(** [interface Prediction].  An array read [SPECIES_NAMES[i]] yields
    [undefined] out of range, hence the [option]. *)
Record Prediction := mkPrediction {
  species : option string;
  confidence : Q
}.

(** [interface HistoryItem], which is also a row of table [predictions]:
    [id INTEGER PRIMARY KEY AUTOINCREMENT, species TEXT NOT NULL,
     confidence REAL NOT NULL, timestamp DATETIME DEFAULT CURRENT_TIMESTAMP]. *)
Record HistoryItem := mkItem {
  id : Z;
  item_species : string;
  item_confidence : Q;
  timestamp : Z
}.

(** The values of [activeTab]. *)
Inductive Tab := camera | results | history_tab.

(** ** JavaScript numbers *)

(** Rounding of a rational to an integer, halves to the even neighbour. *)
Definition rne (q : Q) : Z :=
  let f := Qfloor q in
  match (q - inject_Z f ?= 1 # 2)%Q with
  | Lt => f
  | Gt => f + 1
  | Eq => if Z.even f then f else f + 1
  end.

(** binary64 rounding of a non-negative magnitude given in units of 2^-1074,
    the spacing of the subnormal numbers: with [e] the binary exponent of the
    magnitude, the result is a multiple of 2^(e-52), and of 1 below 2^53
    (53 bits of precision, gradual underflow). *)
Definition round_scaled (X : Q) : Z :=
  let u := Z.max (Z.log2 (Qfloor X) - 52) 0 in
  rne (X / inject_Z (2 ^ u)) * 2 ^ u.

Definition scale : Q := inject_Z (2 ^ 1074).

(** The binary64 value nearest to [x]: what a decimal literal denotes and
    what an arithmetic operation with exact result [x] returns. *)
Definition double (x : Q) : Q :=
  if Qle_bool 0 x then inject_Z (round_scaled (x * scale)) / scale
  else - (inject_Z (round_scaled (- x * scale)) / scale).

(** [x] is a binary64 value. *)
Definition is_double (x : Q) : Prop := (double x == x)%Q.

(** The largest binary64 value below 1. *)
Definition below_one : Q := 1 - (1 # 2 ^ 53).

(** The rational denoted by a machine float (finite ones; 0 otherwise), to
    compare [double] with the arithmetic of the machine. *)
Definition Q_of_float (f : float) : Q :=
  match Prim2SF f with
  | S754_finite s m e =>
      (if s then -1 else 1) * inject_Z (Z.pos m) * (2 # 1) ^ e
  | _ => 0
  end.

(** ** The simulated classifier *)

(** The four results of [Math.random()] that one call of
    [simulateInference] consumes, in call order. *)
Record Draws := mkDraws { r0 : Q; r1 : Q; r2 : Q; r3 : Q }.

(** The contract of [Math.random()]: a number in [0, 1). *)
Definition unit_draw (r : Q) : Prop := (0 <= r /\ r < 1)%Q.

Definition random_ok (d : Draws) : Prop :=
  unit_draw (r0 d) /\ unit_draw (r1 d) /\ unit_draw (r2 d) /\ unit_draw (r3 d).

(** [SPECIES_NAMES.length] *)
Definition SPECIES_NAMES_length : Z := Z.of_nat (List.length SPECIES_NAMES).

(** [SPECIES_NAMES[i]] *)
Definition SPECIES_NAMES_at (i : Z) : option string :=
  if i <? 0 then None else nth_error SPECIES_NAMES (Z.to_nat i).

(** [Math.floor(Math.random() * SPECIES_NAMES.length)] *)
Definition randomIndex (d : Draws) : Z :=
  Qfloor (double (r0 d * inject_Z SPECIES_NAMES_length)).

(** [0.85 + Math.random() * 0.10]: a product, then a sum, each rounded. *)
Definition confidence1 (d : Draws) : Q :=
  double (double 0.85 + double (r1 d * double 0.10)).
Definition confidence2 (d : Draws) : Q :=
  double (double 0.03 + double (r2 d * double 0.05)).
Definition confidence3 (d : Draws) : Q :=
  double (double 0.01 + double (r3 d * double 0.02)).

Definition simulateInference (d : Draws) : list Prediction :=
  [ mkPrediction (SPECIES_NAMES_at (randomIndex d)) (confidence1 d);
    mkPrediction
      (SPECIES_NAMES_at ((randomIndex d + 1) mod SPECIES_NAMES_length))
      (confidence2 d);
    mkPrediction
      (SPECIES_NAMES_at ((randomIndex d + 2) mod SPECIES_NAMES_length))
      (confidence3 d) ].

(** The bound [K] of the specification on the number of predictions. *)
Definition K : nat := 3.

(** Confidences never go up along the list. *)
Definition confidence_ge (p q : Prediction) : Prop :=
  (confidence q <= confidence p)%Q.

Definition confidence_gt (p q : Prediction) : Prop :=
  (confidence q < confidence p)%Q.

(** ** The SQLite database behind [db] *)

(** What a [catch] block can receive. *)
Inductive Exn :=
| SqliteFailure        (* the engine fails: I/O error, full disk, locked file *)
| NoSuchTable          (* a statement names [predictions] before it exists *)
| NotNullViolation     (* [species TEXT NOT NULL] receives no text *)
| PermissionFailure    (* [requestPermission()] rejects *)
| ModelFailure         (* the promise awaited by [loadModel] rejects *)
| CameraFailure        (* [takePictureAsync] rejects *)
| PickerFailure        (* [launchImageLibraryAsync] rejects *)
| ClassifierFailure    (* the classifier throws *)
| TypeError.           (* a property read on [undefined] or [null] *)

Inductive Result (A : Type) : Type :=
| Ok (a : A)
| Throw (e : Exn).

Arguments Ok {A} a.
Arguments Throw {A} e.

(** Table [predictions]: its rows in rowid order, and the AUTOINCREMENT
    high-water mark that SQLite keeps in [sqlite_sequence] (it survives
    [DELETE FROM predictions]). *)
Record Table := mkTable {
  rows : list HistoryItem;
  seq : Z
}.

(** [None]: the file [plantid.db] holds no table [predictions] yet. *)
Definition Database : Type := option Table.

Module SQLite.

Definition max_rowid (l : list HistoryItem) : Z :=
  fold_right (fun r m => Z.max (id r) m) 0 l.

(** AUTOINCREMENT: one more than the largest rowid ever used. *)
Definition next_rowid (t : Table) : Z :=
  Z.max (seq t) (max_rowid (rows t)) + 1.

(** [ORDER BY timestamp DESC] with a [LIMIT] is evaluated through a sorter
    keyed on the ordering term followed by the scan sequence number: a
    scanned row is placed after every row already held whose timestamp is
    greater or equal. *)
Fixpoint sorter_insert (r : HistoryItem) (held : list HistoryItem)
  : list HistoryItem :=
  match held with
  | [] => [r]
  | x :: held' =>
      if timestamp x <? timestamp r then r :: x :: held'
      else x :: sorter_insert r held'
  end.

Definition order_by_timestamp_desc (scan : list HistoryItem)
  : list HistoryItem :=
  fold_left (fun held r => sorter_insert r held) scan [].

(** [db.execSync(`CREATE TABLE IF NOT EXISTS predictions (...)`)] *)
Definition execSync_create (fails : bool) (d : Database) : Result Database :=
  if fails then Throw SqliteFailure
  else match d with
       | Some t => Ok (Some t)
       | None => Ok (Some (mkTable [] 0))
       end.

(** [db.runSync('INSERT INTO predictions (species, confidence)
    VALUES (?, ?)', [species, confidence])] at clock reading [now]. *)
Definition runSync_insert (fails : bool) (now : Z)
    (sp : option string) (c : Q) (d : Database) : Result Database :=
  if fails then Throw SqliteFailure
  else match d with
       | None => Throw NoSuchTable
       | Some t =>
           match sp with
           | None => Throw NotNullViolation
           | Some name =>
               let i := next_rowid t in
               Ok (Some (mkTable (rows t ++ [mkItem i name c now]) i))
           end
       end.

(** [db.getAllSync('SELECT * FROM predictions ORDER BY timestamp DESC
    LIMIT 20')] *)
Definition getAllSync_recent (fails : bool) (d : Database)
  : Result (list HistoryItem) :=
  if fails then Throw SqliteFailure
  else match d with
       | None => Throw NoSuchTable
       | Some t => Ok (firstn 20 (order_by_timestamp_desc (rows t)))
       end.

(** [db.runSync('DELETE FROM predictions')]: one statement, applied as a
    whole or not at all. *)
Definition runSync_delete (fails : bool) (d : Database) : Result Database :=
  if fails then Throw SqliteFailure
  else match d with
       | None => Throw NoSuchTable
       | Some t => Ok (Some (mkTable [] (seq t)))
       end.

End SQLite.

(** Rowids grow along the table and never exceed the high-water mark. *)
Definition wf_table (t : Table) : Prop :=
  StronglySorted (fun a b => id a < id b) (rows t) /\
  Forall (fun r => 0 < id r <= seq t) (rows t) /\
  0 <= seq t.

Definition wf_db (d : Database) : Prop :=
  match d with
  | None => True
  | Some t => wf_table t
  end.

(** ** Component state and effects *)

(** Calls that leave the component, in the order they are made. *)
Inductive Effect :=
| ConsoleLog (msg : string)
| ConsoleError (msg : string) (e : Exn)
| AlertShown (title message : string)
| ConfirmShown (title message : string)
| RequestPermission
| ExecSync_CreateTable
| RunSync_Insert (sp : option string) (c : Q)
| GetAllSync_Recent
| RunSync_Delete
| ModelTimer
| TakePictureAsync
| LaunchImageLibraryAsync.

(** The [useState] cells of [PlantIDApp], the camera permission held by
    [useCameraPermissions] ([None] while the hook still reports [null]),
    the database, and the effects so far (oldest first). *)
Record App := mkApp {
  permission : option bool;
  model : bool;
  predictions : option (list Prediction);
  isLoading : bool;
  activeTab : Tab;
  history : list HistoryItem;
  capturedImage : option string;
  db : Database;
  trace : list Effect
}.

(** The component as first mounted over a database file [d]. *)
Definition mount (d : Database) : App :=
  mkApp None false None true camera [] None d [].

(** ** A state-and-exception monad for the handlers

    A thrown exception keeps the state changes made before it. *)
Definition M (A : Type) : Type := App -> Result A * App.

Definition ret {A} (a : A) : M A := fun s => (Ok a, s).

Definition bind {A B} (m : M A) (k : A -> M B) : M B :=
  fun s => match m s with
           | (Ok a, s') => k a s'
           | (Throw e, s') => (Throw e, s')
           end.

Definition throw {A} (e : Exn) : M A := fun s => (Throw e, s).

(** [try { m } catch (error) { h error }] *)
Definition try_catch {A} (m : M A) (h : Exn -> M A) : M A :=
  fun s => match m s with
           | (Ok a, s') => (Ok a, s')
           | (Throw e, s') => h e s'
           end.

Definition get : M App := fun s => (Ok s, s).

Definition modify (f : App -> App) : M unit := fun s => (Ok tt, f s).

Declare Scope app_scope.
Delimit Scope app_scope with app.
Notation "x <- m ;; k" := (bind m (fun x => k))
  (at level 61, m at next level, right associativity) : app_scope.
Notation "m ;; k" := (bind m (fun _ => k))
  (at level 61, right associativity) : app_scope.
Local Open Scope app_scope.

(** The state and the completion a handler ends with. *)
Definition exec {A} (m : M A) (s : App) : App := snd (m s).
Definition completion {A} (m : M A) (s : App) : Result A := fst (m s).

Definition emit (e : Effect) : M unit :=
  modify (fun s =>
    mkApp (permission s) (model s) (predictions s) (isLoading s) (activeTab s)
          (history s) (capturedImage s) (db s) (trace s ++ [e])).

Definition console_log (msg : string) : M unit := emit (ConsoleLog msg).
Definition console_error (msg : string) (e : Exn) : M unit :=
  emit (ConsoleError msg e).
Definition alert (title message : string) : M unit :=
  emit (AlertShown title message).

Definition setPermission (g : bool) : M unit :=
  modify (fun s =>
    mkApp (Some g) (model s) (predictions s) (isLoading s) (activeTab s)
          (history s) (capturedImage s) (db s) (trace s)).

Definition setModel (b : bool) : M unit :=
  modify (fun s =>
    mkApp (permission s) b (predictions s) (isLoading s) (activeTab s)
          (history s) (capturedImage s) (db s) (trace s)).

Definition setPredictions (p : option (list Prediction)) : M unit :=
  modify (fun s =>
    mkApp (permission s) (model s) p (isLoading s) (activeTab s)
          (history s) (capturedImage s) (db s) (trace s)).

Definition setIsLoading (b : bool) : M unit :=
  modify (fun s =>
    mkApp (permission s) (model s) (predictions s) b (activeTab s)
          (history s) (capturedImage s) (db s) (trace s)).

Definition setActiveTab (t : Tab) : M unit :=
  modify (fun s =>
    mkApp (permission s) (model s) (predictions s) (isLoading s) t
          (history s) (capturedImage s) (db s) (trace s)).

Definition setHistory (h : list HistoryItem) : M unit :=
  modify (fun s =>
    mkApp (permission s) (model s) (predictions s) (isLoading s) (activeTab s)
          h (capturedImage s) (db s) (trace s)).

Definition setCapturedImage (u : option string) : M unit :=
  modify (fun s =>
    mkApp (permission s) (model s) (predictions s) (isLoading s) (activeTab s)
          (history s) u (db s) (trace s)).

Definition set_db (d : Database) (s : App) : App :=
  mkApp (permission s) (model s) (predictions s) (isLoading s) (activeTab s)
        (history s) (capturedImage s) d (trace s).

(** A statement that changes the database: on failure the database is as
    before and the exception reaches the caller. *)
Definition db_write (stmt : Database -> Result Database) : M unit :=
  fun s => match stmt (db s) with
           | Ok d' => (Ok tt, set_db d' s)
           | Throw e => (Throw e, s)
           end.

Definition db_read {A} (query : Database -> Result A) : M A :=
  fun s => match query (db s) with
           | Ok a => (Ok a, s)
           | Throw e => (Throw e, s)
           end.

(** ** What the component renders *)

Inductive Screen :=
| LoadingModel            (* [isLoading && model === false] *)
| CheckingPermissions     (* [!permission] *)
| PermissionRequired      (* [!permission.granted] *)
| Main (t : Tab).         (* the tab bar and the screen of [activeTab] *)

Definition render (s : App) : Screen :=
  if isLoading s && negb (model s) then LoadingModel
  else match permission s with
       | None => CheckingPermissions
       | Some false => PermissionRequired
       | Some true => Main (activeTab s)
       end.

(** [cameraRef.current] is set while [CameraView] is mounted. *)
Definition cameraRef_current (s : App) : bool :=
  match render s with
  | Main camera => true
  | _ => false
  end.

(** The Results tab carries [disabled={!predictions}]. *)
Definition results_tab_disabled (s : App) : bool :=
  match predictions s with
  | None => true
  | Some _ => false
  end.

(** The Results screen is drawn under [activeTab === 'results' && predictions]. *)
Definition results_shown (s : App) : bool :=
  match render s, predictions s with
  | Main results, Some _ => true
  | _, _ => false
  end.

(** [permission?.granted] *)
Definition permission_granted (s : App) : bool :=
  match permission s with
  | Some g => g
  | None => false
  end.

(** ** Storage handlers *)

Definition loadHistory (select_fails : bool) : M unit :=
  try_catch
    (emit GetAllSync_Recent ;;
     results <- db_read (SQLite.getAllSync_recent select_fails) ;;
     setHistory results)
    (fun error => console_error "Load history error:" error).

(** The clock reading and the engine outcomes met by one [savePrediction]. *)
Record SaveIO := mkSaveIO {
  now : Z;
  insert_fails : bool;
  select_fails : bool
}.

Definition savePrediction (sp : option string) (c : Q) (io : SaveIO) : M unit :=
  try_catch
    (emit (RunSync_Insert sp c) ;;
     db_write (SQLite.runSync_insert (insert_fails io) (now io) sp c) ;;
     console_log "✅ Prediction saved" ;;
     loadHistory (select_fails io))
    (fun error => console_error "Save error:" error).

Definition initDatabase (create_fails : bool) : M unit :=
  try_catch
    (emit ExecSync_CreateTable ;;
     db_write (SQLite.execSync_create create_fails) ;;
     console_log "✅ Database initialized")
    (fun error => console_error "Database init error:" error).

(** [clearHistory] only opens the confirmation dialog. *)
Definition clearHistory : M unit :=
  emit (ConfirmShown "Clear History"
          "Are you sure you want to delete all predictions?").

(** The [onPress] of the dialog's 'Clear' button. *)
Definition clearHistory_onPress (delete_fails : bool) : M unit :=
  try_catch
    (emit RunSync_Delete ;;
     db_write (SQLite.runSync_delete delete_fails) ;;
     setHistory [] ;;
     alert "Success" "History cleared")
    (fun error =>
       console_error "Clear history error:" error ;;
       alert "Error" "Failed to clear history").

(** ** Initialisation *)

(** The promise awaited in [loadModel] is a timer in the source and always
    resolves; [rejects] stands for the model loader that is to replace it. *)
Definition loadModel (rejects : bool) : M unit :=
  try_catch
    (console_log "Loading TFLite model..." ;;
     emit ModelTimer ;;
     (if rejects then throw ModelFailure else ret tt) ;;
     setModel true ;;
     console_log "✅ Model loaded")
    (fun error =>
       console_error "Model loading failed:" error ;;
       throw error).

Inductive PermissionOutcome :=
| PermissionRejects
| PermissionResult (granted : bool).

(** The permission step of [initializeApp]; [false] is its early [return]. *)
Definition acquire_permission (perm : PermissionOutcome) : M bool :=
  s <- get ;;
  if negb (permission_granted s) then
    emit RequestPermission ;;
    match perm with
    | PermissionRejects => throw PermissionFailure
    | PermissionResult granted =>
        setPermission granted ;;
        if negb granted then
          alert "Permission Denied" "Camera permission is required" ;;
          setIsLoading false ;;
          ret false
        else ret true
    end
  else ret true.

Definition initializeApp (perm : PermissionOutcome)
    (create_fails load_rejects : bool) : M unit :=
  try_catch
    (proceed <- acquire_permission perm ;;
     if proceed then
       initDatabase create_fails ;;
       loadModel load_rejects ;;
       setIsLoading false
     else ret tt)
    (fun error =>
       console_error "Initialization error:" error ;;
       alert "Error" "Failed to initialize app" ;;
       setIsLoading false).

(** ** The identification pipeline *)

Inductive CameraOutcome :=
| CameraRejects
| CameraResolves (photo : option string).   (* [photo?.uri], if any *)

Inductive PickerOutcome :=
| PickerRejects
| PickerResolves (canceled : bool) (assets : option (list string)).

(** Truthiness of a string: every string but the empty one. *)
Definition truthy (u : string) : bool :=
  match u with
  | EmptyString => false
  | String _ _ => true
  end.

Section Pipeline.

(** The classifier call site.  The source binds it to [simulateInference],
    which cannot throw; the handlers are written over any classifier so
    that their [catch] blocks have a meaning. *)
Variable classify : Draws -> Result (list Prediction).

Definition run_classifier (d : Draws) : M (list Prediction) :=
  fun s => (classify d, s).

(** The statements shared by [takePicture] and [pickImage] between
    [setCapturedImage] and [setActiveTab('results')]. *)
Definition identify (uri : string) (d : Draws) (io : SaveIO) : M unit :=
  setCapturedImage (Some uri) ;;
  predictionResults <- run_classifier d ;;
  setPredictions (Some predictionResults) ;;
  match predictionResults with
  | [] => throw TypeError
  | top :: _ => savePrediction (species top) (confidence top) io
  end ;;
  setActiveTab results.

(** [takePicture] up to its [await]; [true] when the camera was asked. *)
Definition takePicture_begin : M bool :=
  s <- get ;;
  if negb (cameraRef_current s) || negb (model s) then
    alert "Error" "Camera not ready" ;;
    ret false
  else
    setIsLoading true ;;
    emit TakePictureAsync ;;
    ret true.

(** [takePicture] from the moment [takePictureAsync] settles. *)
Definition takePicture_resume_with (cam : CameraOutcome) (d : Draws)
    (io : SaveIO) : M unit :=
  try_catch
    (match cam with
     | CameraRejects => throw CameraFailure
     | CameraResolves photo =>
         match photo with
         | Some uri => if truthy uri then identify uri d io else ret tt
         | None => ret tt
         end ;;
         setIsLoading false
     end)
    (fun error =>
       console_error "Capture error:" error ;;
       alert "Error" "Failed to capture image" ;;
       setIsLoading false).

Definition takePicture_with (cam : CameraOutcome) (d : Draws) (io : SaveIO)
  : M unit :=
  asked <- takePicture_begin ;;
  if asked then takePicture_resume_with cam d io else ret tt.

(** [pickImage] up to its [await]. *)
Definition pickImage_begin : M unit := emit LaunchImageLibraryAsync.

(** [pickImage] from the moment [launchImageLibraryAsync] settles. *)
Definition pickImage_resume_with (pick : PickerOutcome) (d : Draws)
    (io : SaveIO) : M unit :=
  try_catch
    (match pick with
     | PickerRejects => throw PickerFailure
     | PickerResolves canceled assets =>
         if canceled then ret tt
         else match assets with
              | None => throw TypeError
              | Some [] => ret tt
              | Some (uri :: _) =>
                  setIsLoading true ;;
                  identify uri d io ;;
                  setIsLoading false
              end
     end)
    (fun error =>
       console_error "Image picker error:" error ;;
       alert "Error" "Failed to pick image").

Definition pickImage_with (pick : PickerOutcome) (d : Draws) (io : SaveIO)
  : M unit :=
  pickImage_begin ;; pickImage_resume_with pick d io.

End Pipeline.

(** The component's own classifier. *)
Definition classifier (d : Draws) : Result (list Prediction) :=
  Ok (simulateInference d).

Definition takePicture_resume := takePicture_resume_with classifier.
Definition takePicture := takePicture_with classifier.
Definition pickImage_resume := pickImage_resume_with classifier.
Definition pickImage := pickImage_with classifier.

(** The 'Identify Another' button of the Results screen. *)
Definition identifyAnother : M unit :=
  setPredictions None ;;
  setCapturedImage None ;;
  setActiveTab camera.

(** A button of the tab bar, followed by the effect that depends on
    [activeTab]: it runs when the value changed, and reloads the history
    when the new value is ['history']. *)
Definition tab_eqb (a b : Tab) : bool :=
  match a, b with
  | camera, camera | results, results | history_tab, history_tab => true
  | _, _ => false
  end.

Definition selectTab (t : Tab) (select_fails : bool) : M unit :=
  s <- get ;;
  setActiveTab t ;;
  if negb (tab_eqb (activeTab s) t) then
    match t with
    | history_tab => loadHistory select_fails
    | _ => ret tt
    end
  else ret tt.

(** ** The component as an event system

    Handlers run to their next [await] without interruption; between two
    such runs any enabled event may come.  [pending_captures] and
    [pending_picks] count the calls of [takePicture] and [pickImage] that
    wait for the camera or the picker; [open_confirms] counts the
    'Clear History' dialogs that wait for an answer.  Alerts are not
    modelled as blocking the screen under them. *)
Record Sys := mkSys {
  app : App;
  pending_captures : nat;
  pending_picks : nat;
  open_confirms : nat
}.

Inductive Event :=
| PressCapture                       (* [captureButton] *)
| CameraSettles (cam : CameraOutcome) (d : Draws) (io : SaveIO)
| PressGallery                       (* [secondaryButton] *)
| PickerSettles (pick : PickerOutcome) (d : Draws) (io : SaveIO)
| PressTab (t : Tab) (select_fails : bool)
| PressIdentifyAnother
| PressClear                         (* [clearButton] *)
| AnswerClear (delete_fails : bool)  (* the dialog's 'Clear' *)
| AnswerCancel.                      (* the dialog's 'Cancel' *)

(** Whether the control behind an event is drawn and not disabled, or the
    awaited promise exists. *)
Definition enabled (e : Event) (y : Sys) : bool :=
  match e with
  | PressCapture =>
      match render (app y) with
      | Main camera => negb (isLoading (app y))   (* [disabled={isLoading}] *)
      | _ => false
      end
  | PressGallery =>
      match render (app y) with
      | Main camera => true
      | _ => false
      end
  | CameraSettles _ _ _ => (0 <? pending_captures y)%nat
  | PickerSettles _ _ _ => (0 <? pending_picks y)%nat
  | PressTab t _ =>
      match render (app y), t with
      | Main _, results => negb (results_tab_disabled (app y))
      | Main _, _ => true
      | _, _ => false
      end
  | PressIdentifyAnother => results_shown (app y)
  | PressClear =>
      match render (app y), history (app y) with
      | Main history_tab, _ :: _ => true   (* [history.length > 0] *)
      | _, _ => false
      end
  | AnswerClear _ | AnswerCancel => (0 <? open_confirms y)%nat
  end.

Definition dispatch (e : Event) (y : Sys) : Sys :=
  if enabled e y then
    match e with
    | PressCapture =>
        match takePicture_begin (app y) with
        | (Ok true, s') =>
            mkSys s' (S (pending_captures y)) (pending_picks y)
                  (open_confirms y)
        | (_, s') =>
            mkSys s' (pending_captures y) (pending_picks y) (open_confirms y)
        end
    | CameraSettles cam d io =>
        mkSys (exec (takePicture_resume cam d io) (app y))
              (pred (pending_captures y)) (pending_picks y) (open_confirms y)
    | PressGallery =>
        mkSys (exec pickImage_begin (app y))
              (pending_captures y) (S (pending_picks y)) (open_confirms y)
    | PickerSettles pick d io =>
        mkSys (exec (pickImage_resume pick d io) (app y))
              (pending_captures y) (pred (pending_picks y)) (open_confirms y)
    | PressTab t select_fails =>
        mkSys (exec (selectTab t select_fails) (app y))
              (pending_captures y) (pending_picks y) (open_confirms y)
    | PressIdentifyAnother =>
        mkSys (exec identifyAnother (app y))
              (pending_captures y) (pending_picks y) (open_confirms y)
    | PressClear =>
        mkSys (exec clearHistory (app y))
              (pending_captures y) (pending_picks y) (S (open_confirms y))
    | AnswerClear delete_fails =>
        mkSys (exec (clearHistory_onPress delete_fails) (app y))
              (pending_captures y) (pending_picks y) (pred (open_confirms y))
    | AnswerCancel =>
        mkSys (app y)
              (pending_captures y) (pending_picks y) (pred (open_confirms y))
    end
  else y.

Definition run_events (es : list Event) (y : Sys) : Sys :=
  fold_left (fun acc e => dispatch e acc) es y.

(** The pipeline runs that have started and not yet finished. *)
Definition active_runs (y : Sys) : nat :=
  (pending_captures y + pending_picks y)%nat.

Definition is_acquisition (e : Event) : bool :=
  match e with
  | PressCapture | PressGallery => true
  | _ => false
  end.

(** ** Orders on history records *)

(** Newest first, by timestamp alone. *)
Definition newest_first (a b : HistoryItem) : Prop :=
  timestamp b <= timestamp a.

(** Newest first; rows of one second in the order they were inserted. *)
Definition newest_first_then_oldest_id (a b : HistoryItem) : Prop :=
  timestamp b < timestamp a \/ (timestamp b = timestamp a /\ id a < id b).

(** Newest first; rows of one second by descending id. *)
Definition newest_first_then_newest_id (a b : HistoryItem) : Prop :=
  timestamp b < timestamp a \/ (timestamp b = timestamp a /\ id b < id a).

(** ** Evaluating handlers, and the shapes of the states they leave *)

(** Evaluates the monadic plumbing of a handler over a state given by its
    fields; the engine's statements stay folded. *)
Ltac run :=
  cbv beta iota zeta delta
    [exec completion savePrediction loadHistory initDatabase loadModel
     initializeApp acquire_permission permission_granted
     clearHistory_onPress clearHistory console_log console_error alert emit
     setHistory setPredictions setIsLoading setActiveTab setCapturedImage
     setModel setPermission db_write db_read try_catch bind ret throw
     modify get set_db fst snd negb
     permission model predictions isLoading activeTab history capturedImage
     db trace].

(** A state that differs from [s] in the database, the history and the
    effects only. *)
Definition stored (s : App) (d : Database) (h : list HistoryItem)
    (es : list Effect) : App :=
  mkApp (permission s) (model s) (predictions s) (isLoading s) (activeTab s)
        h (capturedImage s) d (trace s ++ es).

Ltac run_pipeline :=
  cbv beta iota zeta delta
    [takePicture takePicture_resume takePicture_with takePicture_resume_with
     takePicture_begin pickImage pickImage_resume pickImage_with
     pickImage_resume_with pickImage_begin identify run_classifier classifier
     identifyAnother species confidence];
  run.


(** ** Concrete states and inputs used by the examples *)

(** The draws [0.96875, 0.5, 0, 0.75] pick the last label and wrap
    around. *)
Definition draws_wrap : Draws := mkDraws (31 # 32) (1 # 2) 0 (3 # 4).

(** The second draw as low and the third as high as [Math.random()] can
    give them. *)
Definition draws_touch : Draws := mkDraws 0 0 0 below_one.

(** One stored identification, made at second 100. *)
Definition row_4 : HistoryItem := mkItem 1 "Species_4" 0.91 100.

Definition store_one : Database := Some (mkTable [row_4] 1).

(** The component after a start-up in which every step succeeded, idle on
    the camera tab, over [store_one]. *)
Definition app_one : App :=
  exec (initializeApp (PermissionResult true) false false) (mount store_one).

(** A save within the second of [row_4], and one a second later. *)
Definition io_same_second : SaveIO := mkSaveIO 100 false false.
Definition io_next_second : SaveIO := mkSaveIO 101 false false.

(** A save made after the device clock was set back by a second. *)
Definition io_clock_back : SaveIO := mkSaveIO 99 false false.

(** A save that the engine refuses. *)
Definition io_insert_fails : SaveIO := mkSaveIO 101 true false.


(** The component of [app_one] while a camera capture is awaited. *)
Definition sys_idle : Sys := mkSys app_one 0 0 0.
Definition sys_capturing : Sys := dispatch PressCapture sys_idle.


(** ** The specification's reading of the storage operations *)

(** The confidence bands, as the specification words them: bands that do
    not overlap, each strictly below the one before, so that every
    prediction is strictly below its predecessor. *)
Definition simulateInference_as_specified (d : Draws) : Prop :=
  StronglySorted confidence_gt (simulateInference d).

(** [listRecent] after an [append], as the specification words it: newest
    first with ties by descending id, at most 20 records, the appended
    label and confidence at the head. *)
Definition listRecent_as_specified (s : App) (name : string) (c : Q)
    (io : SaveIO) : Prop :=
  let h := history (exec (savePrediction (Some name) c io) s) in
  StronglySorted newest_first_then_newest_id h /\
  (List.length h <= 20)%nat /\
  exists i ts, hd_error h = Some (mkItem i name c ts).

(** [append], as the specification words it: a failure of the underlying
    statement is raised to the caller of [savePrediction]. *)
Definition append_as_specified (s : App) (sp : option string) (c : Q)
    (io : SaveIO) : Prop :=
  forall e,
    SQLite.runSync_insert (insert_fails io) (now io) sp c (db s) = Throw e ->
    exists e', completion (savePrediction sp c io) s = Throw e'.

(** [purgeAll], as the specification words it: a failure of the underlying
    statement is raised to the caller of the 'Clear' handler. *)
Definition purgeAll_as_specified (s : App) (delete_fails : bool) : Prop :=
  forall e,
    SQLite.runSync_delete delete_fails (db s) = Throw e ->
    exists e', completion (clearHistory_onPress delete_fails) s = Throw e'.


(** The busy guard, as the specification words it: with one run active, an
    acquisition event starts no second run and is answered by an error. *)
Definition busy_guard_as_specified (y : Sys) (e : Event) : Prop :=
  is_acquisition e = true -> active_runs y = 1%nat ->
  active_runs (dispatch e y) = 1%nat /\
  exists title message,
    trace (app (dispatch e y))
    = (trace (app y) ++ [AlertShown title message])%list.

(** Start-up, as the specification words it, for a failure of the schema
    step: no later step runs, the failure is shown, and the main screen is
    not offered. *)
Definition initialization_as_specified (d : Database) (load_rejects : bool)
  : Prop :=
  let s' :=
    exec (initializeApp (PermissionResult true) true load_rejects) (mount d) in
  ~ In ModelTimer (trace s') /\
  model s' = false /\
  (exists title message, In (AlertShown title message) (trace s')) /\
  (forall t, render s' <> Main t).

(** ** Further handlers, compositions and invariants *)

(** The 'Grant Permission' button of the permission screen:
    [onPress={requestPermission}], with the answer the user gives. *)
Definition grantPermission (granted : bool) : M unit :=
  emit RequestPermission ;;
  setPermission granted.

(** One [savePrediction] after the other, each with its own label,
    confidence, clock reading and engine outcomes. *)
Definition save_each (l : list (string * Q * SaveIO)) (s : App) : App :=
  fold_left
    (fun acc x =>
       exec (savePrediction (Some (fst (fst x))) (snd (fst x)) (snd x)) acc)
    l s.

(** The saves of a list that the engine accepts. *)
Definition accepted (l : list (string * Q * SaveIO))
  : list (string * Q * SaveIO) :=
  filter (fun x => negb (insert_fails (snd x))) l.

(** The Results tab is active only with predictions held. *)
Definition results_need_predictions (s : App) : Prop :=
  activeTab s = results -> predictions s <> None.

(** On the History tab the history shown is what the query returns now;
    without a table nothing is shown. *)
Definition history_in_sync (s : App) : Prop :=
  match db s with
  | None => history s = []
  | Some t =>
      activeTab s = history_tab ->
      history s = firstn 20 (SQLite.order_by_timestamp_desc (rows t))
  end.

(** What one run may do to the database between [s] and [s']: nothing, or
    append a single row made of the first label and the first confidence of
    the draws, stamped with the clock reading. *)
Definition stores_at_most_top (s s' : App) (d : Draws) (io : SaveIO) : Prop :=
  db s' = db s \/
  exists t name,
    db s = Some t /\
    SPECIES_NAMES_at (randomIndex d) = Some name /\
    db s'
    = Some (mkTable
              (rows t ++ [mkItem (SQLite.next_rowid t) name (confidence1 d)
                            (now io)])
              (SQLite.next_rowid t)).

(** Events whose SELECT, if they issue one, is answered. *)
Definition selects_succeed (e : Event) : bool :=
  match e with
  | CameraSettles _ _ io | PickerSettles _ _ io => negb (select_fails io)
  | PressTab _ fails => negb fails
  | _ => true
  end.

(** Events that deliver a picked image. *)
Definition delivers_pick (e : Event) : bool :=
  match e with
  | PickerSettles (PickerResolves false (Some (_ :: _))) _ _ => true
  | _ => false
  end.

(** At most one capture is awaited, and the loading flag is up while one
    is. *)
Definition one_capture (y : Sys) : Prop :=
  (pending_captures y <= 1)%nat /\
  (pending_captures y = 1%nat -> isLoading (app y) = true).

(** Events that run a statement which may change the table. *)
Definition may_write (e : Event) : bool :=
  match e with
  | CameraSettles _ _ _ | PickerSettles _ _ _ | AnswerClear _ => true
  | _ => false
  end.

(** The component after a start-up that stopped at a denied permission,
    once the user has granted the permission from the permission screen. *)
Definition denied_then_granted (d : Database)
    (create_fails load_rejects : bool) : App :=
  exec (grantPermission true)
    (exec (initializeApp (PermissionResult false) create_fails load_rejects)
       (mount d)).

(** * Properties *)

(** ** binary64 rounding *)

Lemma rne_bounds (q : Q) : Qfloor q <= rne q <= Qfloor q + 1.
Proof.
  unfold rne. destruct (q - inject_Z (Qfloor q) ?= 1 # 2)%Q;
    [destruct (Z.even (Qfloor q))|..]; lia.
Qed.

Lemma Qfloor_ge (k : Z) (q : Q) : (inject_Z k <= q)%Q -> k <= Qfloor q.
Proof.
  intros H. rewrite <- (Qfloor_Z k). apply Qfloor_resp_le, H.
Qed.

Lemma rne_ge (k : Z) (q : Q) : (inject_Z k <= q)%Q -> k <= rne q.
Proof.
  intros H. pose proof (Qfloor_ge k q H). pose proof (rne_bounds q). lia.
Qed.

Lemma rne_le (k : Z) (q : Q) : (q <= inject_Z k)%Q -> rne q <= k.
Proof.
  intros H.
  assert (Hf : Qfloor q <= k).
  { rewrite <- (Qfloor_Z k). apply Qfloor_resp_le, H. }
  destruct (Z.eq_dec (Qfloor q) k) as [E|E].
  - unfold rne. rewrite E.
    assert (Hlt : (q - inject_Z k < 1 # 2)%Q) by lra.
    rewrite Qlt_alt in Hlt. rewrite Hlt. lia.
  - pose proof (rne_bounds q). lia.
Qed.

Lemma rne_mono (p q : Q) : (p <= q)%Q -> rne p <= rne q.
Proof.
  intros H.
  assert (Hf : Qfloor p <= Qfloor q) by (apply Qfloor_resp_le, H).
  pose proof (rne_bounds p) as Hp. pose proof (rne_bounds q) as Hq.
  destruct (Z.eq_dec (Qfloor p) (Qfloor q)) as [E|E]; [|lia].
  unfold rne. rewrite <- E.
  destruct (p - inject_Z (Qfloor p) ?= 1 # 2)%Q eqn:Cp;
    destruct (q - inject_Z (Qfloor p) ?= 1 # 2)%Q eqn:Cq;
    try (destruct (Z.even (Qfloor p))); try lia;
    try rewrite <- Qeq_alt in *; try rewrite <- Qlt_alt in *;
    try rewrite <- Qgt_alt in *; exfalso; lra.
Qed.

Lemma pow2_pos (u : Z) : 0 <= u -> (0 < inject_Z (2 ^ u))%Q.
Proof.
  intros Hu. change 0%Q with (inject_Z 0). rewrite <- Zlt_Qlt.
  apply Z.pow_pos_nonneg; lia.
Qed.

(** Below 2^(e+1), where e is the binary logarithm of the integer part. *)
Lemma below_next_power (X : Q) :
  (0 <= X)%Q -> (X < inject_Z (2 ^ (Z.log2 (Qfloor X) + 1)))%Q.
Proof.
  intros HX.
  assert (Hf : 0 <= Qfloor X) by (apply (Qfloor_ge 0 X HX)).
  assert (Hlt : Qfloor X + 1 <= 2 ^ (Z.log2 (Qfloor X) + 1)).
  { destruct (Z.eq_dec (Qfloor X) 0) as [E|E].
    - rewrite E. simpl. lia.
    - pose proof (Z.log2_spec (Qfloor X)) as Hs.
      assert (Hs' : 0 < Qfloor X) by lia.
      specialize (Hs Hs'). unfold Z.succ in Hs. lia. }
  eapply Qlt_le_trans; [apply Qlt_floor|].
  rewrite <- Zle_Qle. exact Hlt.
Qed.

Lemma round_scaled_mono (X Y : Q) :
  (0 <= X)%Q -> (X <= Y)%Q -> round_scaled X <= round_scaled Y.
Proof.
  intros HX HXY. unfold round_scaled.
  set (ex := Z.log2 (Qfloor X)). set (ey := Z.log2 (Qfloor Y)).
  assert (Hfx : 0 <= Qfloor X) by (apply (Qfloor_ge 0 X HX)).
  assert (Hfxy : Qfloor X <= Qfloor Y) by (apply Qfloor_resp_le, HXY).
  assert (Hexy : ex <= ey) by (apply Z.log2_le_mono, Hfxy).
  assert (Hex : 0 <= ex) by apply Z.log2_nonneg.
  set (ux := Z.max (ex - 52) 0). set (uy := Z.max (ey - 52) 0).
  assert (Hux : 0 <= ux) by lia. assert (Huy : 0 <= uy) by lia.
  assert (Hgx := pow2_pos ux Hux). assert (Hgy := pow2_pos uy Huy).
  assert (Hpx : 0 < 2 ^ ux) by (apply Z.pow_pos_nonneg; lia).
  assert (Hpy : 0 < 2 ^ uy) by (apply Z.pow_pos_nonneg; lia).
  destruct (Z.eq_dec ux uy) as [E|E].
  - rewrite <- E. apply Z.mul_le_mono_nonneg_r; [lia|].
    apply rne_mono. apply Qmult_le_compat_r; [exact HXY|].
    apply Qlt_le_weak, Qinv_lt_0_compat, Hgx.
  - assert (Huxy : ux < uy) by lia.
    assert (Huy' : uy = ey - 52) by lia.
    (* the power 2^ey separates the two results *)
    apply Z.le_trans with (2 ^ ey).
    + replace (2 ^ ey) with (2 ^ (ey - ux) * 2 ^ ux)
        by (rewrite <- Z.pow_add_r; [f_equal|..]; lia).
      apply Z.mul_le_mono_nonneg_r; [lia|].
      apply rne_le. apply Qle_shift_div_r; [exact Hgx|].
      rewrite <- inject_Z_mult.
      replace (2 ^ (ey - ux) * 2 ^ ux) with (2 ^ ey)
        by (rewrite <- Z.pow_add_r; [f_equal|..]; lia).
      apply Qlt_le_weak. eapply Qlt_le_trans; [apply below_next_power, HX|].
      rewrite <- Zle_Qle. apply Z.pow_le_mono_r; fold ex; lia.
    + replace (2 ^ ey) with (2 ^ 52 * 2 ^ uy)
        by (rewrite <- Z.pow_add_r; [f_equal|..]; lia).
      apply Z.mul_le_mono_nonneg_r; [lia|].
      apply rne_ge. apply Qle_shift_div_l; [exact Hgy|].
      rewrite <- inject_Z_mult.
      replace (2 ^ 52 * 2 ^ uy) with (2 ^ ey)
        by (rewrite <- Z.pow_add_r; [f_equal|..]; lia).
      assert (Hpos : 0 < Qfloor Y).
      { destruct (Z.le_gt_cases (Qfloor Y) 0) as [Hle|]; [|lia].
        exfalso. unfold ey in Huy'.
        rewrite (Z.log2_nonpos _ Hle) in Huy'. lia. }
      apply Qle_trans with (inject_Z (Qfloor Y)); [|apply Qfloor_le].
      rewrite <- Zle_Qle. apply (Z.log2_spec _ Hpos).
Qed.

Lemma scale_pos : (0 < scale)%Q.
Proof. apply (pow2_pos 1074). lia. Qed.

Lemma double_nonneg_eq (x : Q) :
  (0 <= x)%Q -> double x = (inject_Z (round_scaled (x * scale)) / scale)%Q.
Proof.
  intros Hx. unfold double.
  destruct (Qle_bool 0 x) eqn:E; [reflexivity|].
  apply Qle_bool_iff in Hx. congruence.
Qed.

Lemma double_mono (x y : Q) :
  (0 <= x)%Q -> (x <= y)%Q -> (double x <= double y)%Q.
Proof.
  intros Hx Hxy.
  rewrite (double_nonneg_eq x Hx), (double_nonneg_eq y) by lra.
  apply Qmult_le_compat_r.
  - rewrite <- Zle_Qle. apply round_scaled_mono.
    + apply Qmult_le_0_compat; [exact Hx | apply Qlt_le_weak, scale_pos].
    + apply Qmult_le_compat_r; [exact Hxy | apply Qlt_le_weak, scale_pos].
  - apply Qlt_le_weak, Qinv_lt_0_compat, scale_pos.
Qed.

Lemma double_zero : (double 0 == 0)%Q.
Proof. vm_compute. reflexivity. Qed.

Lemma double_nonneg (x : Q) : (0 <= x)%Q -> (0 <= double x)%Q.
Proof.
  intros Hx. rewrite <- double_zero. apply double_mono; [lra | exact Hx].
Qed.

Lemma is_double_below_one (r : Q) :
  is_double r -> (0 <= r)%Q -> (r < 1)%Q -> (r <= below_one)%Q.
Proof.
  unfold is_double. intros Hd Hr0 Hr1.
  rewrite (double_nonneg_eq r Hr0) in Hd.
  set (X := (r * scale)%Q) in *.
  set (N := round_scaled X) in *.
  pose proof scale_pos as Hs.
  assert (HX : (X == inject_Z N)%Q).
  { unfold X. rewrite <- Hd at 1. field. intros E. rewrite E in Hs.
    apply (Qlt_irrefl 0), Hs. }
  assert (Hfloor : Qfloor X = N).
  { rewrite HX. apply Qfloor_Z. }
  assert (HN : N < 2 ^ 1074).
  { rewrite Zlt_Qlt, <- HX. unfold X. fold scale.
    setoid_replace scale with (1 * scale)%Q at 2 by ring.
    apply Qmult_lt_compat_r; assumption. }
  assert (Hbound : N <= 2 ^ 1074 - 2 ^ 1021).
  { destruct (Z.lt_ge_cases N (2 ^ 1073)) as [Hlow|Hhigh].
    - assert (2 ^ 1073 <= 2 ^ 1074 - 2 ^ 1021); [|lia].
      replace (2 ^ 1074) with (2 * 2 ^ 1073)
        by (change 1074 with (1 + 1073); rewrite Z.pow_add_r; lia).
      assert (2 ^ 1021 <= 2 ^ 1073) by (apply Z.pow_le_mono_r; lia). lia.
    - assert (Hlog : Z.log2 N = 1073).
      { apply Z.log2_unique; [lia|]. change (Z.succ 1073) with 1074. lia. }
      set (k := rne (X / inject_Z (2 ^ 1021))).
      assert (HNk : N = k * 2 ^ 1021).
      { unfold N at 1, round_scaled. rewrite Hfloor, Hlog. reflexivity. }
      assert (Hp : 0 < 2 ^ 1021) by (apply Z.pow_pos_nonneg; lia).
      assert (Hsplit : 2 ^ 1074 = 2 ^ 53 * 2 ^ 1021)
        by (rewrite <- Z.pow_add_r; [reflexivity|lia|lia]).
      rewrite Hsplit in *.
      nia. }
  rewrite <- Hd. apply Qle_shift_div_r; [exact Hs|].
  apply Qle_trans with (inject_Z (2 ^ 1074 - 2 ^ 1021)).
  - rewrite <- Zle_Qle. exact Hbound.
  - vm_compute. discriminate.
Qed.

(** ** The classifier *)

Lemma randomIndex_upto (d : Draws) :
  unit_draw (r0 d) -> 0 <= randomIndex d <= SPECIES_NAMES_length.
Proof.
  intros [Hlo Hhi]. unfold randomIndex.
  change SPECIES_NAMES_length with 20.
  change (inject_Z 20) with (20 # 1)%Q. split.
  - apply (Qfloor_ge 0). apply double_nonneg. lra.
  - apply Z.le_trans with (Qfloor (inject_Z 20));
      [apply Qfloor_resp_le | rewrite Qfloor_Z; lia].
    apply Qle_trans with (double (20 # 1)).
    + apply double_mono; lra.
    + vm_compute. discriminate.
Qed.

Lemma randomIndex_range (d : Draws) :
  unit_draw (r0 d) -> is_double (r0 d) ->
  0 <= randomIndex d < SPECIES_NAMES_length.
Proof.
  intros Hu Hd. split; [apply (randomIndex_upto d Hu)|].
  destruct Hu as [Hlo Hhi].
  pose proof (is_double_below_one (r0 d) Hd Hlo Hhi) as Hmax.
  unfold randomIndex. change SPECIES_NAMES_length with 20.
  change (inject_Z 20) with (20 # 1)%Q.
  assert (Hle : Qfloor (double (r0 d * (20 # 1)))
                <= Qfloor (double (below_one * (20 # 1)))).
  { apply Qfloor_resp_le, double_mono; lra. }
  assert (Htop : Qfloor (double (below_one * (20 # 1))) = 19)
    by (vm_compute; reflexivity).
  lia.
Qed.

Lemma SPECIES_NAMES_at_defined (i : Z) :
  0 <= i < SPECIES_NAMES_length ->
  exists name, SPECIES_NAMES_at i = Some name /\ In name SPECIES_NAMES.
Proof.
  intros Hi. unfold SPECIES_NAMES_at.
  destruct (Z.ltb_spec i 0) as [Hneg|_]; [lia|].
  destruct (nth_error SPECIES_NAMES (Z.to_nat i)) as [name|] eqn:E.
  - exists name. split; [reflexivity|]. eapply nth_error_In; exact E.
  - exfalso. apply nth_error_None in E.
    unfold SPECIES_NAMES_length in Hi. lia.
Qed.

(** A sum of a literal and a rounded product of a draw with a literal lies
    between the rounded literal and the rounded sum of the two literals. *)
Lemma band_bounds (a b r : Q) :
  (0 <= a)%Q -> (0 <= b)%Q -> (0 <= r)%Q -> (r < 1)%Q ->
  (double (double a) <= double (double a + double (r * double b)))%Q /\
  (double (double a + double (r * double b))
   <= double (double a + double (double b)))%Q.
Proof.
  intros Ha Hb Hr0 Hr1.
  pose proof (double_nonneg a Ha) as HA.
  pose proof (double_nonneg b Hb) as HB.
  set (A := double a) in *. set (B := double b) in *.
  assert (Hprod0 : (0 <= r * B)%Q) by (apply Qmult_le_0_compat; assumption).
  assert (Hprod1 : (r * B <= B)%Q).
  { setoid_replace B with (1 * B)%Q at 2 by ring.
    apply Qmult_le_compat_r; [lra | exact HB]. }
  pose proof (double_nonneg (r * B) Hprod0) as Ht0.
  pose proof (double_mono (r * B) B Hprod0 Hprod1) as Ht1.
  split; apply double_mono; lra.
Qed.

(** The bands of the three confidences, as binary64 values. *)
Lemma literal_bands :
  (double 0.85 <= double (double 0.85))%Q /\
  (double (double 0.85 + double (double 0.10)) <= double 0.95)%Q /\
  (double 0.03 <= double (double 0.03))%Q /\
  (double (double 0.03 + double (double 0.05)) <= double 0.08)%Q /\
  (double 0.01 <= double (double 0.01))%Q /\
  (double (double 0.01 + double (double 0.02)) <= double 0.03)%Q /\
  (double 0.08 < double 0.85)%Q /\
  (0 <= double 0.01)%Q /\ (double 0.95 <= 1)%Q.
Proof. vm_compute. repeat split; discriminate. Qed.

(** C1, amended.  For draws in [0, 1), the first of them a binary64 value,
    [simulateInference] returns exactly three predictions [p1; p2; p3] (so
    between 1 and K = 3).  As binary64 values their confidences lie in
    [0.85, 0.95], [0.03, 0.08] and [0.01, 0.03]: the dominant band is
    strictly above the other two, which meet at 0.03.  So the list is
    non-increasing (the first confidence strictly above the second, the
    third at most the second), its head is the maximum, and every
    confidence is in [0, 1].  The labels are entries [i], [(i+1) mod 20] and
    [(i+2) mod 20] of [SPECIES_NAMES] for one index [i] of the table. *)
Theorem simulateInference_ranked (d : Draws) (Hd : random_ok d)
    (Hf : is_double (r0 d)) :
  (1 <= List.length (simulateInference d) <= K)%nat /\
  StronglySorted confidence_ge (simulateInference d) /\
  Forall (fun p => 0 <= confidence p /\ confidence p <= 1)%Q
         (simulateInference d) /\
  exists p1 p2 p3,
    simulateInference d = [p1; p2; p3] /\
    (double 0.85 <= confidence p1 /\ confidence p1 <= double 0.95)%Q /\
    (double 0.03 <= confidence p2 /\ confidence p2 <= double 0.08)%Q /\
    (double 0.01 <= confidence p3 /\ confidence p3 <= double 0.03)%Q /\
    (confidence p2 < confidence p1)%Q /\
    (confidence p3 <= confidence p2)%Q /\
    Forall (confidence_ge p1) (simulateInference d) /\
    exists i n1 n2 n3,
      0 <= i < SPECIES_NAMES_length /\
      nth_error SPECIES_NAMES (Z.to_nat i) = Some n1 /\
      nth_error SPECIES_NAMES (Z.to_nat ((i + 1) mod SPECIES_NAMES_length))
        = Some n2 /\
      nth_error SPECIES_NAMES (Z.to_nat ((i + 2) mod SPECIES_NAMES_length))
        = Some n3 /\
      species p1 = Some n1 /\ species p2 = Some n2 /\ species p3 = Some n3.
Proof.
  destruct Hd as (H0 & [H1a H1b] & [H2a H2b] & [H3a H3b]).
  destruct literal_bands as (L1 & U1 & L2 & U2 & L3 & U3 & Hgap & Hlow & Hup).
  assert (B1 := band_bounds 0.85 0.10 (r1 d) ltac:(lra) ltac:(lra) H1a H1b).
  assert (B2 := band_bounds 0.03 0.05 (r2 d) ltac:(lra) ltac:(lra) H2a H2b).
  assert (B3 := band_bounds 0.01 0.02 (r3 d) ltac:(lra) ltac:(lra) H3a H3b).
  fold (confidence1 d) in B1. fold (confidence2 d) in B2.
  fold (confidence3 d) in B3.
  destruct B1 as [B1a B1b], B2 as [B2a B2b], B3 as [B3a B3b].
  revert L1 U1 L2 U2 L3 U3 Hgap Hlow Hup B1a B1b B2a B2b B3a B3b.
  generalize (double (double 0.85)) (double (double 0.03))
    (double (double 0.01)) (double (double 0.85 + double (double 0.10)))
    (double (double 0.03 + double (double 0.05)))
    (double (double 0.01 + double (double 0.02))).
  generalize (double 0.85) (double 0.95) (double 0.03) (double 0.08)
    (double 0.01).
  intros k85 k95 k03 k08 k01 l1 l2 l3 u1 u2 u3.
  intros L1 U1 L2 U2 L3 U3 Hgap Hlow Hup B1a B1b B2a B2b B3a B3b.
  unfold simulateInference.
  generalize dependent (confidence1 d). generalize dependent (confidence2 d).
  generalize dependent (confidence3 d). intros c3 B3a B3b c2 B2a B2b c1 B1a B1b.
  split; [simpl; unfold K; lia|].
  split.
  { repeat constructor; unfold confidence_ge; cbn [confidence]; lra. }
  split.
  { repeat constructor; cbn [confidence]; lra. }
  do 3 eexists. split; [reflexivity|]. cbn [confidence species].
  split; [split; lra|].
  split; [split; lra|].
  split; [split; lra|].
  split; [lra|]. split; [lra|].
  split.
  { repeat constructor; unfold confidence_ge; cbn [confidence]; lra. }
  pose proof (randomIndex_range d H0 Hf) as Hi.
  assert (Hm1 : 0 <= (randomIndex d + 1) mod SPECIES_NAMES_length
                < SPECIES_NAMES_length)
    by (apply Z.mod_pos_bound; unfold SPECIES_NAMES_length; simpl; lia).
  assert (Hm2 : 0 <= (randomIndex d + 2) mod SPECIES_NAMES_length
                < SPECIES_NAMES_length)
    by (apply Z.mod_pos_bound; unfold SPECIES_NAMES_length; simpl; lia).
  destruct (SPECIES_NAMES_at_defined _ Hi) as (n1 & E1 & _).
  destruct (SPECIES_NAMES_at_defined _ Hm1) as (n2 & E2 & _).
  destruct (SPECIES_NAMES_at_defined _ Hm2) as (n3 & E3 & _).
  exists (randomIndex d), n1, n2, n3.
  rewrite E1, E2, E3.
  unfold SPECIES_NAMES_at in E1, E2, E3.
  destruct (Z.ltb_spec (randomIndex d) 0); [lia|].
  destruct (Z.ltb_spec ((randomIndex d + 1) mod SPECIES_NAMES_length) 0);
    [lia|].
  destruct (Z.ltb_spec ((randomIndex d + 2) mod SPECIES_NAMES_length) 0);
    [lia|].
  repeat split; try assumption; lia.
Qed.

Lemma draws_wrap_ok : random_ok draws_wrap.
Proof. unfold random_ok, unit_draw, draws_wrap; simpl. repeat split; lra. Qed.

Example simulateInference_wrap :
  map species (simulateInference draws_wrap)
  = [Some "Species_20"; Some "Species_1"; Some "Species_2"].
Proof. vm_compute. reflexivity. Qed.

Lemma simulateInference_ranked_witness :
  random_ok draws_wrap /\ is_double (r0 draws_wrap) /\
  StronglySorted confidence_ge (simulateInference draws_wrap).
Proof.
  split; [|split].
  - unfold random_ok, unit_draw, draws_wrap; simpl. repeat split; lra.
  - vm_compute. reflexivity.
  - apply (simulateInference_ranked draws_wrap).
    + unfold random_ok, unit_draw, draws_wrap; simpl. repeat split; lra.
    + vm_compute. reflexivity.
Defined.

(** C1, as stated, fails: with the second draw 0 and the third draw the
    largest binary64 value below 1, the second and the third confidence are
    both the binary64 value 0.03, so the two lower bands overlap and the
    list is not strictly decreasing. *)
Lemma simulateInference_bands_touch :
  random_ok draws_touch /\
  is_double (r0 draws_touch) /\ is_double (r2 draws_touch) /\
  is_double (r3 draws_touch) /\
  (confidence2 draws_touch == double 0.03)%Q /\
  (confidence3 draws_touch == double 0.03)%Q /\
  ~ simulateInference_as_specified draws_touch.
Proof.
  split.
  { unfold random_ok, unit_draw, draws_touch, below_one; simpl.
    repeat split; try lra; vm_compute; try reflexivity; discriminate. }
  split; [vm_compute; reflexivity|].
  split; [vm_compute; reflexivity|].
  split; [vm_compute; reflexivity|].
  split; [vm_compute; reflexivity|].
  split; [vm_compute; reflexivity|].
  assert (Hnot : ~ (confidence3 draws_touch < confidence2 draws_touch)%Q).
  { intros Hlt. vm_compute in Hlt. discriminate Hlt. }
  unfold simulateInference_as_specified, simulateInference.
  revert Hnot.
  generalize (confidence1 draws_touch) (confidence2 draws_touch)
    (confidence3 draws_touch) (randomIndex draws_touch).
  intros c1 c2 c3 i Hnot H. apply Hnot.
  inversion H as [|? ? Htail _]; subst.
  inversion Htail as [|? ? _ Hsecond]; subst.
  inversion Hsecond as [|? ? Hlt _]; subst.
  exact Hlt.
Qed.

(** The rounding model against the machine's binary64 arithmetic: the
    expressions of [simulateInference], evaluated on machine floats at the
    draws above, denote the confidences and the index of the model. *)
Example double_agrees_with_machine :
  (Q_of_float (0.01 + 0x1.fffffffffffffp-1 * 0.02)%float
   == confidence3 draws_touch)%Q /\
  (Q_of_float (0.03 + 0 * 0.05)%float == confidence2 draws_touch)%Q /\
  (Q_of_float (0.85 + 0.5 * 0.10)%float == confidence1 draws_wrap)%Q /\
  (Q_of_float (0.01 + 0.75 * 0.02)%float == confidence3 draws_wrap)%Q /\
  (Q_of_float (0.96875 * 20)%float
   == double (r0 draws_wrap * inject_Z SPECIES_NAMES_length))%Q /\
  (Q_of_float (0x1.fffffffffffffp-1 * 20)%float
   == double (below_one * inject_Z SPECIES_NAMES_length))%Q /\
  (Q_of_float 0.85%float == double 0.85)%Q /\
  (Q_of_float 0.95%float == double 0.95)%Q /\
  (Q_of_float 0.03%float == double 0.03)%Q /\
  (Q_of_float 0.08%float == double 0.08)%Q /\
  (Q_of_float 0x1.fffffffffffffp-1%float == below_one)%Q /\
  (Q_of_float (1 + 0x1p-53)%float == double (1 + (1 # 2 ^ 53)))%Q /\
  (Q_of_float (1 + 0x1.8p-52)%float == double (1 + (3 # 2 ^ 53)))%Q /\
  (Q_of_float (0x1p-1074 * 0.5)%float == double ((1 # 2 ^ 1074) * (1 # 2)))%Q /\
  (Q_of_float (0x1p-1074 * 1.5)%float == double ((1 # 2 ^ 1074) * (3 # 2)))%Q /\
  (Q_of_float (0.1 + 0.2)%float == double (double 0.1 + double 0.2))%Q /\
  (Q_of_float (1 / 3)%float == double (1 # 3))%Q.
Proof. vm_compute. repeat split. Qed.

(** ** The ordered query *)

Section Sorter.

Import SQLite.

Lemma sorter_insert_perm (r : HistoryItem) (held : list HistoryItem) :
  Permutation (sorter_insert r held) (r :: held).
Proof.
  induction held as [|x held IH]; simpl.
  - apply Permutation_refl.
  - destruct (timestamp x <? timestamp r).
    + apply Permutation_refl.
    + eapply perm_trans; [apply perm_skip, IH | apply perm_swap].
Qed.

Lemma fold_sorter_perm (scan held : list HistoryItem) :
  Permutation (fold_left (fun h r => sorter_insert r h) scan held)
              (held ++ scan).
Proof.
  revert held. induction scan as [|r scan IH]; intros held; simpl.
  - rewrite app_nil_r. apply Permutation_refl.
  - eapply perm_trans; [apply IH|].
    eapply perm_trans;
      [apply Permutation_app_tail, sorter_insert_perm|].
    simpl. apply Permutation_middle.
Qed.

Lemma order_by_timestamp_desc_perm (scan : list HistoryItem) :
  Permutation (order_by_timestamp_desc scan) scan.
Proof. apply (fold_sorter_perm scan []). Qed.

Lemma sorter_insert_Forall (P : HistoryItem -> Prop) r held :
  P r -> Forall P held -> Forall P (sorter_insert r held).
Proof.
  intros Hr Hh.
  eapply Permutation_Forall;
    [apply Permutation_sym, sorter_insert_perm|].
  constructor; assumption.
Qed.

Lemma sorter_insert_sorted r held :
  StronglySorted newest_first held ->
  StronglySorted newest_first (sorter_insert r held).
Proof.
  induction 1 as [|x held Hs IH Hx]; simpl.
  - repeat constructor.
  - destruct (Z.ltb_spec (timestamp x) (timestamp r)) as [Hlt|Hge].
    + constructor; [constructor; assumption|].
      constructor; [unfold newest_first; lia|].
      eapply Forall_impl; [|exact Hx].
      unfold newest_first; intros; lia.
    + constructor; [exact IH|].
      apply sorter_insert_Forall; [unfold newest_first; lia|exact Hx].
Qed.

Lemma sorter_insert_stable r held :
  StronglySorted newest_first_then_oldest_id held ->
  Forall (fun x => id x < id r) held ->
  StronglySorted newest_first_then_oldest_id (sorter_insert r held).
Proof.
  induction 1 as [|x held Hs IH Hx]; intros Hid; simpl.
  - repeat constructor.
  - inversion Hid as [|? ? Hxr Hrest]; subst.
    destruct (Z.ltb_spec (timestamp x) (timestamp r)) as [Hlt|Hge].
    + constructor; [constructor; assumption|].
      constructor; [left; lia|].
      eapply Forall_impl; [|exact Hx].
      unfold newest_first_then_oldest_id; intros a Ha; left; lia.
    + constructor; [apply IH; exact Hrest|].
      apply sorter_insert_Forall; [|exact Hx].
      unfold newest_first_then_oldest_id.
      destruct (Z.eq_dec (timestamp r) (timestamp x)); [right|left]; lia.
Qed.

Lemma fold_sorter_sorted scan : forall held,
  StronglySorted newest_first held ->
  StronglySorted newest_first
    (fold_left (fun h r => sorter_insert r h) scan held).
Proof.
  induction scan as [|r scan IH]; intros held Hh; simpl.
  - exact Hh.
  - apply IH, sorter_insert_sorted, Hh.
Qed.

Lemma fold_sorter_stable scan : forall held,
  StronglySorted newest_first_then_oldest_id held ->
  StronglySorted (fun a b => id a < id b) scan ->
  Forall (fun x => Forall (fun r => id x < id r) scan) held ->
  StronglySorted newest_first_then_oldest_id
    (fold_left (fun h r => sorter_insert r h) scan held).
Proof.
  induction scan as [|r scan IH]; intros held Hh Hscan Hlow; simpl.
  - exact Hh.
  - inversion Hscan as [|? ? Hscan' Hr]; subst.
    apply IH.
    + apply sorter_insert_stable; [exact Hh|].
      eapply Forall_impl; [|exact Hlow].
      intros a Ha. inversion Ha; assumption.
    + exact Hscan'.
    + apply sorter_insert_Forall; [exact Hr|].
      eapply Forall_impl; [|exact Hlow].
      intros a Ha. inversion Ha; assumption.
Qed.

Lemma order_by_timestamp_desc_sorted scan :
  StronglySorted newest_first (order_by_timestamp_desc scan).
Proof. apply fold_sorter_sorted. constructor. Qed.

Lemma order_by_timestamp_desc_stable scan :
  StronglySorted (fun a b => id a < id b) scan ->
  StronglySorted newest_first_then_oldest_id (order_by_timestamp_desc scan).
Proof.
  intros Hscan. apply fold_sorter_stable;
    [constructor | exact Hscan | constructor].
Qed.

(** A row newer than every held row goes to the front. *)
Lemma sorter_insert_newest r held :
  Forall (fun x => timestamp x < timestamp r) held ->
  sorter_insert r held = r :: held.
Proof.
  intros Hh. destruct held as [|x held]; simpl; [reflexivity|].
  inversion Hh; subst.
  destruct (Z.ltb_spec (timestamp x) (timestamp r)); [reflexivity|lia].
Qed.

Lemma order_by_timestamp_desc_snoc scan r :
  order_by_timestamp_desc (scan ++ [r])
  = sorter_insert r (order_by_timestamp_desc scan).
Proof. unfold order_by_timestamp_desc. rewrite fold_left_app. reflexivity. Qed.

End Sorter.

Lemma firstn_In {A} (n : nat) (l : list A) (x : A) :
  In x (firstn n l) -> In x l.
Proof.
  revert l. induction n as [|n IH]; intros [|y l]; simpl; try tauto.
  intros [E|H]; [left; exact E | right; apply IH; exact H].
Qed.

Lemma StronglySorted_firstn {A} (R : A -> A -> Prop) (n : nat) (l : list A) :
  StronglySorted R l -> StronglySorted R (firstn n l).
Proof.
  revert l. induction n as [|n IH]; intros l Hl; simpl.
  - constructor.
  - destruct l as [|x l]; [constructor|].
    inversion Hl as [|? ? Hs Hx]; subst.
    constructor; [apply IH; exact Hs|].
    rewrite Forall_forall in *. intros y Hy.
    apply Hx. eapply firstn_In; exact Hy.
Qed.

(** ** Running the handlers *)

Lemma loadHistory_run (s : App) (select_fails : bool) :
  loadHistory select_fails s =
  match SQLite.getAllSync_recent select_fails (db s) with
  | Ok h => (Ok tt, stored s (db s) h [GetAllSync_Recent])
  | Throw e =>
      (Ok tt, stored s (db s) (history s)
                [GetAllSync_Recent; ConsoleError "Load history error:" e])
  end.
Proof.
  destruct s; unfold stored; run.
  destruct (SQLite.getAllSync_recent _ _); run;
    rewrite <- ?app_assoc; reflexivity.
Qed.

Lemma savePrediction_run (s : App) (sp : option string) (c : Q) (io : SaveIO) :
  savePrediction sp c io s =
  match SQLite.runSync_insert (insert_fails io) (now io) sp c (db s) with
  | Ok d' =>
      loadHistory (select_fails io)
        (stored s d' (history s)
           [RunSync_Insert sp c; ConsoleLog "✅ Prediction saved"])
  | Throw e =>
      (Ok tt, stored s (db s) (history s)
                [RunSync_Insert sp c; ConsoleError "Save error:" e])
  end.
Proof.
  destruct s; unfold stored; run.
  destruct (SQLite.runSync_insert _ _ _ _ _); run.
  - destruct (SQLite.getAllSync_recent _ _); run;
      rewrite <- ?app_assoc; reflexivity.
  - rewrite <- ?app_assoc; reflexivity.
Qed.

Lemma initDatabase_run (s : App) (create_fails : bool) :
  initDatabase create_fails s =
  match SQLite.execSync_create create_fails (db s) with
  | Ok d' =>
      (Ok tt, stored s d' (history s)
                [ExecSync_CreateTable; ConsoleLog "✅ Database initialized"])
  | Throw e =>
      (Ok tt, stored s (db s) (history s)
                [ExecSync_CreateTable; ConsoleError "Database init error:" e])
  end.
Proof.
  destruct s; unfold stored; run.
  destruct (SQLite.execSync_create _ _); run;
    rewrite <- ?app_assoc; reflexivity.
Qed.

Lemma clearHistory_onPress_run (s : App) (delete_fails : bool) :
  clearHistory_onPress delete_fails s =
  match SQLite.runSync_delete delete_fails (db s) with
  | Ok d' =>
      (Ok tt, stored s d' []
                [RunSync_Delete; AlertShown "Success" "History cleared"])
  | Throw e =>
      (Ok tt, stored s (db s) (history s)
                [RunSync_Delete; ConsoleError "Clear history error:" e;
                 AlertShown "Error" "Failed to clear history"])
  end.
Proof.
  destruct s; unfold stored; run.
  destruct (SQLite.runSync_delete _ _); run;
    rewrite <- ?app_assoc; reflexivity.
Qed.

(** ** Reading the history *)

Lemma next_rowid_wf (t : Table) :
  wf_table t -> SQLite.next_rowid t = seq t + 1.
Proof.
  intros (_ & Hids & Hseq). unfold SQLite.next_rowid.
  assert (SQLite.max_rowid (rows t) <= seq t).
  { induction Hids as [|r l Hr _ IH]; simpl; lia. }
  lia.
Qed.

(** C2, amended.  Over an existing table, [loadHistory] sets the history to
    the first 20 rows in descending timestamp order; rows with equal
    timestamps come in ascending id (insertion) order, not descending.  Every
    record shown is a stored row, and all rows are shown when there are at
    most 20.  After a successful [savePrediction] stamped strictly later than
    every stored row, the reloaded history has the saved label and
    confidence at its head. *)
Theorem loadHistory_recent_first (s : App) (t : Table)
    (Hdb : db s = Some t) (Hwf : wf_table t) :
  history (exec (loadHistory false) s)
    = firstn 20 (SQLite.order_by_timestamp_desc (rows t)) /\
  (List.length (history (exec (loadHistory false) s)) <= 20)%nat /\
  StronglySorted newest_first (history (exec (loadHistory false) s)) /\
  StronglySorted newest_first_then_oldest_id
    (history (exec (loadHistory false) s)) /\
  (forall r, In r (history (exec (loadHistory false) s)) -> In r (rows t)) /\
  ((List.length (rows t) <= 20)%nat ->
   Permutation (history (exec (loadHistory false) s)) (rows t)) /\
  forall name c io,
    insert_fails io = false -> select_fails io = false ->
    Forall (fun r => timestamp r < now io) (rows t) ->
    history (exec (savePrediction (Some name) c io) s)
    = mkItem (seq t + 1) name c (now io)
      :: firstn 19 (SQLite.order_by_timestamp_desc (rows t)).
Proof.
  assert (E : history (exec (loadHistory false) s)
              = firstn 20 (SQLite.order_by_timestamp_desc (rows t))).
  { unfold exec. rewrite loadHistory_run, Hdb. reflexivity. }
  rewrite E. split; [reflexivity|].
  split; [apply firstn_le_length|].
  split; [apply StronglySorted_firstn, order_by_timestamp_desc_sorted|].
  split.
  { apply StronglySorted_firstn, order_by_timestamp_desc_stable, Hwf. }
  split.
  { intros r Hr. apply firstn_In in Hr.
    eapply Permutation_in;
      [apply order_by_timestamp_desc_perm | exact Hr]. }
  split.
  { intros Hlen. rewrite firstn_all2.
    - apply order_by_timestamp_desc_perm.
    - rewrite (Permutation_length (order_by_timestamp_desc_perm (rows t))).
      exact Hlen. }
  intros name c io Hins Hsel Hnew.
  unfold exec. rewrite savePrediction_run, Hdb, Hins. simpl.
  rewrite loadHistory_run, Hsel. simpl.
  rewrite order_by_timestamp_desc_snoc, sorter_insert_newest.
  - rewrite (next_rowid_wf t Hwf). reflexivity.
  - eapply Permutation_Forall;
      [apply Permutation_sym, order_by_timestamp_desc_perm | exact Hnew].
Qed.

Lemma wf_store_one : wf_db store_one.
Proof.
  unfold wf_db, store_one, wf_table; simpl.
  repeat split; try lia; repeat constructor; simpl; lia.
Defined.

Lemma loadHistory_recent_first_witness :
  db app_one = store_one /\ wf_db store_one /\
  history (exec (savePrediction (Some "Species_9") 0.88 io_next_second) app_one)
  = [mkItem 2 "Species_9" 0.88 101; row_4].
Proof.
  split; [reflexivity|]. split; [exact wf_store_one|].
  apply (loadHistory_recent_first app_one (mkTable [row_4] 1)
           eq_refl wf_store_one).
  - reflexivity.
  - reflexivity.
  - repeat constructor.
Defined.

(** A save within the second of the stored row: the query puts the older
    row first. *)
Example history_same_second :
  history (exec (savePrediction (Some "Species_9") 0.88 io_same_second) app_one)
  = [row_4; mkItem 2 "Species_9" 0.88 100].
Proof. reflexivity. Qed.

Example history_clock_back :
  history (exec (savePrediction (Some "Species_9") 0.88 io_clock_back) app_one)
  = [row_4; mkItem 2 "Species_9" 0.88 99].
Proof. reflexivity. Qed.

(** C2, as stated, fails: after one stored row of second 100, a save made in
    the same second is listed second, so the head is not the appended record
    and the tie is not in descending id order.  The head is not the appended
    record either when the clock was set back before the save. *)
Lemma listRecent_tie_counterexample :
  ~ listRecent_as_specified app_one "Species_9" 0.88 io_same_second /\
  ~ listRecent_as_specified app_one "Species_9" 0.88 io_clock_back.
Proof.
  unfold listRecent_as_specified.
  split; intros (_ & _ & i & ts & Hhd).
  - rewrite history_same_second in Hhd. simpl in Hhd. discriminate Hhd.
  - rewrite history_clock_back in Hhd. simpl in Hhd. discriminate Hhd.
Qed.

Lemma listRecent_tie_order :
  ~ StronglySorted newest_first_then_newest_id
      (history
         (exec (savePrediction (Some "Species_9") 0.88 io_same_second) app_one)).
Proof.
  rewrite history_same_second. intros H.
  inversion H as [|? ? _ Hall]; subst.
  inversion Hall as [|? ? Hrel _]; subst.
  unfold newest_first_then_newest_id in Hrel; simpl in Hrel. lia.
Qed.

(** ** Saving a prediction *)

Lemma StronglySorted_snoc {A} (R : A -> A -> Prop) (l : list A) (a : A) :
  StronglySorted R l -> Forall (fun x => R x a) l ->
  StronglySorted R (l ++ [a]).
Proof.
  induction 1 as [|x l Hs IH Hx]; intros Ha; simpl.
  - repeat constructor.
  - inversion Ha; subst. constructor; [apply IH; assumption|].
    apply Forall_app. split; [exact Hx | repeat constructor; assumption].
Qed.

Lemma insert_preserves_wf (t : Table) (name : string) (c : Q) (ts : Z) :
  wf_table t ->
  wf_table (mkTable (rows t ++ [mkItem (seq t + 1) name c ts]) (seq t + 1)).
Proof.
  intros (Hs & Hids & Hseq). unfold wf_table; simpl.
  split; [|split; [|lia]].
  - apply StronglySorted_snoc; [exact Hs|].
    eapply Forall_impl; [|exact Hids]. simpl; intros; lia.
  - apply Forall_app. split.
    + eapply Forall_impl; [|exact Hids]. simpl; intros; lia.
    + repeat constructor; simpl; lia.
Qed.

(** C3, amended.  [savePrediction] never raises.  When the INSERT fails the
    failure is only written to the console: the handler returns normally,
    the database and the history are as before, and its caller is told
    nothing.  When the INSERT succeeds over a well-formed table, the new row
    is the last one, carries the clock reading, and its id is one more than
    the high-water mark, above every stored id; the mark moves up by one, so
    successive saves get consecutive ids. *)
Theorem savePrediction_outcome (s : App) (sp : option string) (c : Q)
    (io : SaveIO) :
  completion (savePrediction sp c io) s = Ok tt /\
  (forall e,
     SQLite.runSync_insert (insert_fails io) (now io) sp c (db s) = Throw e ->
     exec (savePrediction sp c io) s
     = stored s (db s) (history s)
         [RunSync_Insert sp c; ConsoleError "Save error:" e]) /\
  (forall t name,
     db s = Some t -> wf_table t -> sp = Some name ->
     insert_fails io = false ->
     db (exec (savePrediction sp c io) s)
     = Some (mkTable (rows t ++ [mkItem (seq t + 1) name c (now io)])
                     (seq t + 1)) /\
     Forall (fun r => id r < seq t + 1) (rows t) /\
     wf_table (mkTable (rows t ++ [mkItem (seq t + 1) name c (now io)])
                       (seq t + 1))).
Proof.
  split; [|split].
  - unfold completion. rewrite savePrediction_run.
    destruct (SQLite.runSync_insert _ _ _ _ _); [|reflexivity].
    rewrite loadHistory_run.
    destruct (SQLite.getAllSync_recent _ _); reflexivity.
  - intros e He. unfold exec. rewrite savePrediction_run, He. reflexivity.
  - intros t name Hdb Hwf -> Hins.
    split; [|split].
    + unfold exec. rewrite savePrediction_run, Hdb, Hins. simpl.
      rewrite loadHistory_run.
      rewrite (next_rowid_wf t Hwf).
      destruct (SQLite.getAllSync_recent _ _); reflexivity.
    + destruct Hwf as (_ & Hids & _).
      eapply Forall_impl; [|exact Hids]. simpl; intros; lia.
    + apply insert_preserves_wf, Hwf.
Qed.

(** C3, as stated, fails: the engine refuses the INSERT, and
    [savePrediction] returns normally with nothing but a console entry. *)
Lemma savePrediction_swallows_failure :
  SQLite.runSync_insert (insert_fails io_insert_fails) (now io_insert_fails)
    (Some "Species_9") 0.88 (db app_one) = Throw SqliteFailure /\
  completion (savePrediction (Some "Species_9") 0.88 io_insert_fails) app_one
    = Ok tt /\
  trace (exec (savePrediction (Some "Species_9") 0.88 io_insert_fails) app_one)
    = (trace app_one ++ [RunSync_Insert (Some "Species_9") 0.88;
                         ConsoleError "Save error:" SqliteFailure])%list /\
  ~ append_as_specified app_one (Some "Species_9") 0.88 io_insert_fails.
Proof.
  repeat split.
  intros H. destruct (H SqliteFailure eq_refl) as [e' He'].
  discriminate He'.
Qed.

(** ** Clearing the history *)

(** C5, amended.  The 'Clear' handler of [clearHistory] never raises.  Over
    an existing table, when the DELETE succeeds every row is gone, the
    history shown is empty and stays empty after any later [loadHistory], and
    a success alert is shown.  When the DELETE fails, the handler catches the
    error, logs it and shows 'Failed to clear history' instead of raising:
    no row is gone, and the history shown is what it was, since
    [setHistory([])] runs only after the DELETE has succeeded.  Opening the
    dialog changes nothing by itself. *)
Theorem clearHistory_all_or_nothing (s : App) (t : Table)
    (Hdb : db s = Some t) :
  clearHistory_onPress false s
  = (Ok tt,
     stored s (Some (mkTable [] (seq t))) []
       [RunSync_Delete; AlertShown "Success" "History cleared"]) /\
  (forall select_fails,
     history (exec (loadHistory select_fails)
                (exec (clearHistory_onPress false) s)) = []) /\
  clearHistory_onPress true s
  = (Ok tt,
     stored s (db s) (history s)
       [RunSync_Delete; ConsoleError "Clear history error:" SqliteFailure;
        AlertShown "Error" "Failed to clear history"]) /\
  exec clearHistory s
  = stored s (db s) (history s)
      [ConfirmShown "Clear History"
         "Are you sure you want to delete all predictions?"].
Proof.
  split; [|split; [|split]].
  - rewrite clearHistory_onPress_run, Hdb. reflexivity.
  - intros select_fails. unfold exec.
    rewrite clearHistory_onPress_run, Hdb. simpl.
    rewrite loadHistory_run. simpl.
    destruct select_fails; reflexivity.
  - rewrite clearHistory_onPress_run. reflexivity.
  - destruct s; reflexivity.
Qed.

Lemma clearHistory_all_or_nothing_witness :
  db app_one = store_one /\
  db (exec (clearHistory_onPress false) app_one) = Some (mkTable [] 1) /\
  history (exec (clearHistory_onPress false) app_one) = [] /\
  db (exec (clearHistory_onPress true) app_one) = store_one.
Proof.
  split; [reflexivity|].
  destruct (clearHistory_all_or_nothing app_one (mkTable [row_4] 1) eq_refl)
    as (Hok & _ & Hfail & _).
  unfold exec. rewrite Hok, Hfail. repeat split.
Defined.

(** C5, as stated, fails: the engine refuses the DELETE, and the handler
    returns normally; the failure is an alert, not an exception. *)
Lemma clearHistory_failure_not_raised :
  SQLite.runSync_delete true (db app_one) = Throw SqliteFailure /\
  completion (clearHistory_onPress true) app_one = Ok tt /\
  ~ purgeAll_as_specified app_one true.
Proof.
  repeat split.
  intros H. destruct (H SqliteFailure eq_refl) as [e' He'].
  discriminate He'.
Qed.

Example clearHistory_failure_keeps_rows :
  db (exec (clearHistory_onPress true) app_one) = store_one.
Proof. reflexivity. Qed.

(** ** Creating the schema *)

(** C9.  [initDatabase] never raises.  Over an existing table it changes
    neither the table nor any state shown (it only logs), whatever the engine
    answers; and after one successful call a second call leaves the database
    as the first one left it, so every later query reads the same. *)
Theorem initDatabase_idempotent (s : App) (create_fails : bool) :
  completion (initDatabase create_fails) s = Ok tt /\
  (forall t,
     db s = Some t ->
     exec (initDatabase create_fails) s
     = stored s (Some t) (history s)
         [ExecSync_CreateTable;
          if create_fails
          then ConsoleError "Database init error:" SqliteFailure
          else ConsoleLog "✅ Database initialized"]) /\
  db (exec (initDatabase create_fails) (exec (initDatabase false) s))
    = db (exec (initDatabase false) s) /\
  (forall select_fails,
     SQLite.getAllSync_recent select_fails
       (db (exec (initDatabase create_fails) (exec (initDatabase false) s)))
     = SQLite.getAllSync_recent select_fails
         (db (exec (initDatabase false) s))) /\
  exists t, db (exec (initDatabase false) s) = Some t.
Proof.
  assert (Hexists : exists t, db (exec (initDatabase false) s) = Some t).
  { unfold exec. rewrite initDatabase_run. simpl.
    destruct (db s) as [t|]; eexists; reflexivity. }
  assert (Hnoop : forall s0 t, db s0 = Some t -> forall f,
            db (exec (initDatabase f) s0) = Some t).
  { intros s0 t Hdb f. unfold exec. rewrite initDatabase_run, Hdb.
    destruct f; reflexivity. }
  assert (Htwice :
            db (exec (initDatabase create_fails) (exec (initDatabase false) s))
            = db (exec (initDatabase false) s)).
  { destruct Hexists as [t Ht]. rewrite Ht. apply Hnoop. exact Ht. }
  split; [|split; [|split; [|split]]].
  - unfold completion. rewrite initDatabase_run.
    destruct (SQLite.execSync_create _ _); reflexivity.
  - intros t Hdb. unfold exec. rewrite initDatabase_run, Hdb.
    destruct create_fails; reflexivity.
  - exact Htwice.
  - intros select_fails. rewrite Htwice. reflexivity.
  - exact Hexists.
Qed.

Example initDatabase_creates_empty_table :
  db (exec (initDatabase false) (mount None)) = Some (mkTable [] 0) /\
  db (exec (initDatabase false) (exec (initDatabase false) (mount None)))
    = Some (mkTable [] 0) /\
  db (exec (initDatabase false) (mount store_one)) = store_one.
Proof. repeat split. Qed.

(** ** The pipeline *)



(** C10.  When the picker reports a cancelled pick, [pickImage] returns
    normally and leaves every state cell and the database as they were:
    permission, model flag, predictions, loading flag, tab, history and
    captured image.  The only trace of the call is that the picker was
    opened; no classifier run, no INSERT, no alert. *)
Theorem pickImage_cancel_noop (s : App) (assets : option (list string))
    (d : Draws) (io : SaveIO) :
  completion (pickImage (PickerResolves true assets) d io) s = Ok tt /\
  exec (pickImage (PickerResolves true assets) d io) s
  = stored s (db s) (history s) [LaunchImageLibraryAsync] /\
  exec (pickImage_resume (PickerResolves true assets) d io) s = s.
Proof.
  destruct s; unfold stored; repeat split.
Qed.

(** A pick that resolves with an empty asset list does nothing either. *)
Lemma pickImage_no_asset_noop (s : App) (d : Draws) (io : SaveIO) :
  exec (pickImage_resume (PickerResolves false (Some [])) d io) s = s.
Proof. destruct s; reflexivity. Qed.




(** ** Initialisation *)

(** C8, amended.  On mount, [initializeApp] asks for the camera permission,
    then creates the schema, then loads the model.  A denied permission is
    shown ('Permission Denied') and ends the sequence: no statement reaches
    the database and the model is not loaded.  A rejected permission request
    or a failed model load is shown as 'Failed to initialize app' and leaves
    the model flag down.  A failed schema creation is only written to the
    console by [initDatabase]: the sequence goes on to load the model and
    ends ready, with no alert. *)
Theorem initializeApp_sequence (d : Database) (create_fails load_rejects : bool) :
  exec (initializeApp (PermissionResult false) create_fails load_rejects)
    (mount d)
  = mkApp (Some false) false None false camera [] None d
      [RequestPermission;
       AlertShown "Permission Denied" "Camera permission is required"] /\
  exec (initializeApp PermissionRejects create_fails load_rejects) (mount d)
  = mkApp None false None false camera [] None d
      [RequestPermission;
       ConsoleError "Initialization error:" PermissionFailure;
       AlertShown "Error" "Failed to initialize app"] /\
  exec (initializeApp (PermissionResult true) false false) (mount d)
  = mkApp (Some true) true None false camera [] None
      (match d with Some t => Some t | None => Some (mkTable [] 0) end)
      [RequestPermission; ExecSync_CreateTable;
       ConsoleLog "✅ Database initialized";
       ConsoleLog "Loading TFLite model..."; ModelTimer;
       ConsoleLog "✅ Model loaded"] /\
  exec (initializeApp (PermissionResult true) true false) (mount d)
  = mkApp (Some true) true None false camera [] None d
      [RequestPermission; ExecSync_CreateTable;
       ConsoleError "Database init error:" SqliteFailure;
       ConsoleLog "Loading TFLite model..."; ModelTimer;
       ConsoleLog "✅ Model loaded"] /\
  exec (initializeApp (PermissionResult true) false true) (mount d)
  = mkApp (Some true) false None false camera [] None
      (match d with Some t => Some t | None => Some (mkTable [] 0) end)
      [RequestPermission; ExecSync_CreateTable;
       ConsoleLog "✅ Database initialized";
       ConsoleLog "Loading TFLite model..."; ModelTimer;
       ConsoleError "Model loading failed:" ModelFailure;
       ConsoleError "Initialization error:" ModelFailure;
       AlertShown "Error" "Failed to initialize app"] /\
  exec (initializeApp (PermissionResult true) true true) (mount d)
  = mkApp (Some true) false None false camera [] None d
      [RequestPermission; ExecSync_CreateTable;
       ConsoleError "Database init error:" SqliteFailure;
       ConsoleLog "Loading TFLite model..."; ModelTimer;
       ConsoleError "Model loading failed:" ModelFailure;
       ConsoleError "Initialization error:" ModelFailure;
       AlertShown "Error" "Failed to initialize app"] /\
  render
    (exec (initializeApp (PermissionResult false) create_fails load_rejects)
       (mount d)) = PermissionRequired.
Proof.
  repeat split; destruct d; reflexivity.
Qed.

(** C8, as stated, fails: over a fresh database file the schema creation
    fails, yet the model is loaded, no alert is shown and the main screen
    comes up on the camera tab. *)
Lemma initializeApp_schema_failure_goes_on :
  ~ initialization_as_specified None false.
Proof.
  unfold initialization_as_specified. intros (Hhalt & _).
  apply Hhalt. vm_compute. tauto.
Qed.

Example initializeApp_schema_failure_ready :
  model (exec (initializeApp (PermissionResult true) true false) (mount None))
    = true /\
  render (exec (initializeApp (PermissionResult true) true false) (mount None))
    = Main camera /\
  db (exec (initializeApp (PermissionResult true) true false) (mount None))
    = None.
Proof. repeat split. Qed.

(** ** The busy guard *)

Lemma takePicture_begin_cases (s : App) :
  takePicture_begin s
  = (Ok true,
     mkApp (permission s) (model s) (predictions s) true (activeTab s)
       (history s) (capturedImage s) (db s) (trace s ++ [TakePictureAsync]))
  \/
  takePicture_begin s
  = (Ok false,
     stored s (db s) (history s) [AlertShown "Error" "Camera not ready"]).
Proof.
  destruct s as [p m pr l a h c d tr]; unfold takePicture_begin, stored.
  unfold bind, get. cbn [model].
  destruct (negb (cameraRef_current (mkApp p m pr l a h c d tr)) || negb m);
    run; rewrite <- ?app_assoc; auto.
Qed.

Lemma pickImage_resume_keeps_loading (s : App) (pick : PickerOutcome)
    (d : Draws) (io : SaveIO) :
  delivers_pick (PickerSettles pick d io) = false ->
  isLoading (exec (pickImage_resume pick d io) s) = isLoading s.
Proof.
  destruct s, pick as [|[] [[|uri others]|]]; simpl; intros H;
    try discriminate H; reflexivity.
Qed.

Lemma selectTab_keeps_loading (s : App) (t : Tab) (fails : bool) :
  isLoading (exec (selectTab t fails) s) = isLoading s.
Proof.
  destruct s; unfold selectTab; run.
  destruct (tab_eqb activeTab0 t); run; [reflexivity|].
  destruct t; run; try reflexivity.
  destruct (SQLite.getAllSync_recent _ _); reflexivity.
Qed.

Lemma dispatch_one_capture (e : Event) (y : Sys) :
  delivers_pick e = false -> one_capture y -> one_capture (dispatch e y).
Proof.
  unfold one_capture. intros Hpick [Hle Hup]. unfold dispatch.
  destruct (enabled e y) eqn:He; [|split; assumption].
  destruct e; cbn [app pending_captures].
  - assert (Hidle : isLoading (app y) = false).
    { unfold enabled in He.
      destruct (render (app y)) as [| | |[]]; try discriminate He.
      destruct (isLoading (app y)); [discriminate He | reflexivity]. }
    assert (Hnone : pending_captures y = 0%nat).
    { destruct (pending_captures y) as [|[|n]]; [reflexivity| |lia].
      rewrite (Hup eq_refl) in Hidle. discriminate Hidle. }
    destruct (takePicture_begin_cases (app y)) as [-> | ->];
      cbn [app pending_captures]; rewrite Hnone; split;
      try lia; intros _; reflexivity.
  - simpl in He. apply Nat.ltb_lt in He. split; lia.
  - destruct (app y); split; assumption.
  - rewrite (pickImage_resume_keeps_loading _ pick d io Hpick).
    split; assumption.
  - rewrite selectTab_keeps_loading. split; assumption.
  - destruct (app y); split; assumption.
  - destruct (app y); split; assumption.
  - unfold exec. rewrite clearHistory_onPress_run.
    destruct (SQLite.runSync_delete _ _); split; assumption.
  - split; assumption.
Qed.

Lemma run_events_one_capture (es : list Event) :
  forall y,
    forallb (fun e => negb (delivers_pick e)) es = true ->
    one_capture y -> one_capture (run_events es y).
Proof.
  induction es as [|e es IH]; intros y Hes Hinv; simpl in *.
  - exact Hinv.
  - apply andb_prop in Hes. destruct Hes as [He Hes].
    apply (IH _ Hes), dispatch_one_capture; [|exact Hinv].
    destruct (delivers_pick e); [discriminate He | reflexivity].
Qed.

(** C4, amended.  While [isLoading] is up the capture button is disabled: a
    capture press is dropped, that is, the state and the pending calls are
    unchanged, nothing is queued and nothing is reported.  A capture press
    that does start a run raises [isLoading], so two presses in a row start
    at most one run.  And along any sequence of events in which no gallery
    pick delivers an image, at most one capture is awaited at a time, with
    [isLoading] up for as long as it is. *)
Theorem capture_press_dropped_while_loading (y : Sys) :
  (isLoading (app y) = true ->
   enabled PressCapture y = false /\ dispatch PressCapture y = y) /\
  (pending_captures (dispatch PressCapture y) <> pending_captures y ->
   pending_captures (dispatch PressCapture y) = S (pending_captures y) /\
   isLoading (app (dispatch PressCapture y)) = true) /\
  (pending_captures (dispatch PressCapture (dispatch PressCapture y))
   <= S (pending_captures y))%nat /\
  (forall es,
     forallb (fun e => negb (delivers_pick e)) es = true ->
     one_capture y -> one_capture (run_events es y)).
Proof.
  cut ((isLoading (app y) = true ->
        enabled PressCapture y = false /\ dispatch PressCapture y = y) /\
       (pending_captures (dispatch PressCapture y) <> pending_captures y ->
        pending_captures (dispatch PressCapture y) = S (pending_captures y) /\
        isLoading (app (dispatch PressCapture y)) = true) /\
       (pending_captures (dispatch PressCapture (dispatch PressCapture y))
        <= S (pending_captures y))%nat).
  { intros (Hdrop & Hstart & Htwice).
    split; [exact Hdrop|]. split; [exact Hstart|]. split; [exact Htwice|].
    intros es. apply run_events_one_capture. }
  destruct y as [s pc pp oc]. destruct s as [p m pr l a h c d tr].
  assert (Hdrop : forall y', isLoading (app y') = true ->
            enabled PressCapture y' = false /\ dispatch PressCapture y' = y').
  { intros y' Hbusy. assert (He : enabled PressCapture y' = false).
    { unfold enabled. rewrite Hbusy.
      destruct (render (app y')) as [| | |[]]; reflexivity. }
    split; [exact He|]. unfold dispatch. rewrite He. reflexivity. }
  split; [apply Hdrop|].
  destruct l; [|destruct p as [[]|]; [destruct a; [destruct m|..]|..]];
    try (split; [intros Hne; exfalso; apply Hne; reflexivity
                | simpl; lia]).
  - (* loading *)
    destruct (Hdrop (mkSys (mkApp p m pr true a h c d tr) pc pp oc) eq_refl)
      as [_ ->].
    destruct (Hdrop (mkSys (mkApp p m pr true a h c d tr) pc pp oc) eq_refl)
      as [_ ->].
    split; [intros Hne; exfalso; apply Hne; reflexivity | simpl; lia].
  - (* idle, camera tab, model loaded: the press starts a run *)
    split; [intros _; split; reflexivity | simpl; lia].
Qed.

(** C4, as stated, fails: while a camera capture is awaited, the gallery
    button is live and pressing it starts a second run; and a second press
    of the capture button is dropped without any error being reported. *)
Lemma gallery_press_starts_second_run :
  active_runs sys_capturing = 1%nat /\
  active_runs (dispatch PressGallery sys_capturing) = 2%nat /\
  dispatch PressCapture sys_capturing = sys_capturing /\
  ~ busy_guard_as_specified sys_capturing PressGallery /\
  ~ busy_guard_as_specified sys_capturing PressCapture.
Proof.
  split; [reflexivity|]. split; [reflexivity|]. split; [reflexivity|].
  unfold busy_guard_as_specified. split; intros H.
  - destruct (H eq_refl eq_refl) as [Hruns _].
    vm_compute in Hruns. discriminate Hruns.
  - destruct (H eq_refl eq_refl) as (_ & title & message & Htrace).
    assert (Hlen := f_equal (@List.length Effect) Htrace).
    rewrite length_app in Hlen. vm_compute in Hlen. discriminate Hlen.
Qed.

Example two_runs_interleave :
  active_runs sys_capturing = 1%nat /\
  enabled PressGallery sys_capturing = true /\
  active_runs (dispatch PressGallery sys_capturing) = 2%nat /\
  map item_species
    (match db (app (run_events
                 [PressCapture; PressGallery;
                  PickerSettles (PickerResolves false (Some ["file:///a.jpg"]))
                    draws_wrap io_next_second;
                  CameraSettles (CameraResolves (Some "file:///b.jpg"))
                    (mkDraws 0 0 0 0) io_next_second]
                 sys_idle)) with
     | Some t => rows t
     | None => []
     end)
  = ["Species_4"; "Species_20"; "Species_1"].
Proof. repeat split. Qed.

(** ** Well-formed tables along every run *)

Lemma runSync_insert_wf fails ts sp c (d d' : Database) :
  wf_db d -> SQLite.runSync_insert fails ts sp c d = Ok d' -> wf_db d'.
Proof.
  unfold SQLite.runSync_insert. intros Hwf H.
  destruct fails; [discriminate|].
  destruct d as [t|]; [|discriminate].
  destruct sp as [name|]; [|discriminate].
  injection H as <-. simpl in *.
  rewrite (next_rowid_wf t Hwf). apply insert_preserves_wf, Hwf.
Qed.

Lemma runSync_delete_wf fails (d d' : Database) :
  wf_db d -> SQLite.runSync_delete fails d = Ok d' -> wf_db d'.
Proof.
  unfold SQLite.runSync_delete. intros Hwf H.
  destruct fails; [discriminate|].
  destruct d as [t|]; [|discriminate].
  injection H as <-. destruct Hwf as (_ & _ & Hseq).
  repeat split; simpl; [constructor | constructor | exact Hseq].
Qed.

Lemma execSync_create_wf fails (d d' : Database) :
  wf_db d -> SQLite.execSync_create fails d = Ok d' -> wf_db d'.
Proof.
  unfold SQLite.execSync_create. intros Hwf H.
  destruct fails; [discriminate|].
  destruct d as [t|]; injection H as <-; [exact Hwf|].
  repeat split; simpl; [constructor | constructor | lia].
Qed.

Lemma savePrediction_wf s sp c io :
  wf_db (db s) -> wf_db (db (exec (savePrediction sp c io) s)).
Proof.
  intros Hwf. unfold exec. rewrite savePrediction_run.
  destruct (SQLite.runSync_insert _ _ _ _ _) as [d'|e] eqn:E;
    [|exact Hwf].
  rewrite loadHistory_run. simpl.
  destruct (SQLite.getAllSync_recent _ _); simpl;
    eapply runSync_insert_wf; eassumption.
Qed.

Lemma clearHistory_onPress_wf s fails :
  wf_db (db s) -> wf_db (db (exec (clearHistory_onPress fails) s)).
Proof.
  intros Hwf. unfold exec. rewrite clearHistory_onPress_run.
  destruct (SQLite.runSync_delete _ _) as [d'|e] eqn:E; simpl;
    [eapply runSync_delete_wf; eassumption | exact Hwf].
Qed.

Lemma initDatabase_wf s fails :
  wf_db (db s) -> wf_db (db (exec (initDatabase fails) s)).
Proof.
  intros Hwf. unfold exec. rewrite initDatabase_run.
  destruct (SQLite.execSync_create _ _) as [d'|e] eqn:E; simpl;
    [eapply execSync_create_wf; eassumption | exact Hwf].
Qed.

Ltac settle_insert :=
  match goal with
  | |- context [SQLite.runSync_insert ?f ?ts ?sp ?c ?d] =>
      let E := fresh "E" in
      destruct (SQLite.runSync_insert f ts sp c d) eqn:E; run_pipeline;
      [ match goal with
        | |- context [SQLite.getAllSync_recent ?g ?d'] =>
            destruct (SQLite.getAllSync_recent g d'); run_pipeline
        end;
        eapply runSync_insert_wf; eassumption
      | assumption ]
  end.

Lemma takePicture_resume_wf s cam d io :
  wf_db (db s) -> wf_db (db (exec (takePicture_resume cam d io) s)).
Proof.
  destruct s; simpl. intros Hwf.
  destruct cam as [|[uri|]]; run_pipeline; try assumption.
  destruct (truthy uri); run_pipeline; try assumption.
  unfold simulateInference; run_pipeline. settle_insert.
Qed.

Lemma pickImage_resume_wf s pick d io :
  wf_db (db s) -> wf_db (db (exec (pickImage_resume pick d io) s)).
Proof.
  destruct s; simpl. intros Hwf.
  destruct pick as [|[] [[|uri others]|]]; run_pipeline; try assumption.
  unfold simulateInference; run_pipeline. settle_insert.
Qed.

(** Every event keeps the table well formed: ids ascend along the rows and
    stay at or below the high-water mark. *)
Lemma dispatch_wf (e : Event) (y : Sys) :
  wf_db (db (app y)) -> wf_db (db (app (dispatch e y))).
Proof.
  intros Hwf. unfold dispatch.
  destruct (enabled e y); [|exact Hwf].
  destruct e; simpl.
  - destruct y as [s pc pp oc]; destruct s; simpl in *.
    unfold takePicture_begin; run.
    match goal with
    | |- context [cameraRef_current ?s0] => destruct (cameraRef_current s0)
    end; destruct model0; simpl; exact Hwf.
  - apply takePicture_resume_wf, Hwf.
  - destruct y as [s pc pp oc]; destruct s; simpl in *. exact Hwf.
  - apply pickImage_resume_wf, Hwf.
  - destruct y as [s pc pp oc]; destruct s; simpl in *.
    unfold selectTab; run.
    destruct (tab_eqb activeTab0 t); simpl; [exact Hwf|].
    destruct t; run; try exact Hwf.
    destruct (SQLite.getAllSync_recent _ _); exact Hwf.
  - destruct y as [s pc pp oc]; destruct s; simpl in *. exact Hwf.
  - destruct y as [s pc pp oc]; destruct s; simpl in *. exact Hwf.
  - apply clearHistory_onPress_wf, Hwf.
  - exact Hwf.
Qed.

Lemma run_events_wf (es : list Event) (y : Sys) :
  wf_db (db (app y)) -> wf_db (db (app (run_events es y))).
Proof.
  revert y. induction es as [|e es IH]; intros y Hwf; simpl.
  - exact Hwf.
  - apply IH, dispatch_wf, Hwf.
Qed.

(** * Further properties *)

(** ** Labels of one classification *)




(** ** What the history shows *)

Lemma firstn_before_skipn {A} (R : A -> A -> Prop) (n : nat) (l : list A) :
  StronglySorted R l ->
  forall a b, In a (firstn n l) -> In b (skipn n l) -> R a b.
Proof.
  revert l. induction n as [|n IH]; intros l Hl a b Ha Hb; simpl in *.
  - contradiction.
  - destruct l as [|x l]; simpl in *; [contradiction|].
    inversion Hl as [|? ? Hs Hx]; subst.
    destruct Ha as [<-|Ha].
    + rewrite Forall_forall in Hx. apply Hx.
      rewrite <- (firstn_skipn n l). apply in_or_app. right. exact Hb.
    + eapply IH; eassumption.
Qed.

(** X2.  Over an existing table, [loadHistory] shows [min 20 n] of the [n]
    stored rows, and they are the newest ones: the rows shown together with
    the rows left out are exactly the stored rows, and no row left out is
    newer than a row shown. *)
Theorem loadHistory_shows_newest (s : App) (t : Table) (Hdb : db s = Some t) :
  List.length (history (exec (loadHistory false) s))
    = Nat.min 20 (List.length (rows t)) /\
  exists hidden,
    Permutation (history (exec (loadHistory false) s) ++ hidden) (rows t) /\
    forall a b,
      In a (history (exec (loadHistory false) s)) -> In b hidden ->
      timestamp b <= timestamp a.
Proof.
  assert (E : history (exec (loadHistory false) s)
              = firstn 20 (SQLite.order_by_timestamp_desc (rows t))).
  { unfold exec. rewrite loadHistory_run, Hdb. reflexivity. }
  rewrite E. split.
  - rewrite length_firstn.
    rewrite (Permutation_length (order_by_timestamp_desc_perm (rows t))).
    reflexivity.
  - exists (skipn 20 (SQLite.order_by_timestamp_desc (rows t))). split.
    + rewrite firstn_skipn. apply order_by_timestamp_desc_perm.
    + intros a b Ha Hb.
      apply (firstn_before_skipn newest_first 20
               (SQLite.order_by_timestamp_desc (rows t))
               (order_by_timestamp_desc_sorted (rows t)) a b Ha Hb).
Qed.

Lemma loadHistory_shows_newest_witness :
  db app_one = store_one /\
  List.length (history (exec (loadHistory false) app_one)) = 1%nat.
Proof.
  split; [reflexivity|].
  apply (loadHistory_shows_newest app_one (mkTable [row_4] 1) eq_refl).
Defined.

Lemma StronglySorted_snoc_inv {A} (R : A -> A -> Prop) (l : list A) (a : A) :
  StronglySorted R (l ++ [a]) ->
  StronglySorted R l /\ Forall (fun x => R x a) l.
Proof.
  induction l as [|x l IH]; simpl; intros H.
  - split; constructor.
  - inversion H as [|? ? Hs Hx]; subst.
    destruct (IH Hs) as [Hl Ha].
    apply Forall_app in Hx. destruct Hx as [Hxl Hxa].
    split; constructor; try assumption.
    inversion Hxa; assumption.
Qed.

Lemma order_by_timestamp_desc_ascending (l : list HistoryItem) :
  StronglySorted (fun a b => timestamp a < timestamp b) l ->
  SQLite.order_by_timestamp_desc l = rev l.
Proof.
  induction l as [|r l IH] using rev_ind; intros Hl; [reflexivity|].
  apply StronglySorted_snoc_inv in Hl. destruct Hl as [Hl Hr].
  rewrite order_by_timestamp_desc_snoc, rev_unit, (IH Hl).
  apply sorter_insert_newest.
  eapply Permutation_Forall; [apply Permutation_rev | exact Hr].
Qed.

(** X3.  When every stored row is stamped strictly later than the rows
    inserted before it, [loadHistory] shows the rows in reverse insertion
    order, the last 20 of them. *)
Theorem loadHistory_reverse_insertion_order (s : App) (t : Table)
    (Hdb : db s = Some t)
    (Hclock : StronglySorted (fun a b => timestamp a < timestamp b) (rows t)) :
  history (exec (loadHistory false) s) = firstn 20 (rev (rows t)).
Proof.
  unfold exec. rewrite loadHistory_run, Hdb. simpl.
  rewrite (order_by_timestamp_desc_ascending (rows t) Hclock). reflexivity.
Qed.

Lemma loadHistory_reverse_insertion_order_witness :
  history
    (exec (loadHistory false)
       (exec (savePrediction (Some "Species_9") 0.88 io_next_second) app_one))
  = [mkItem 2 "Species_9" 0.88 101; row_4].
Proof.
  apply (loadHistory_reverse_insertion_order
           (exec (savePrediction (Some "Species_9") 0.88 io_next_second)
              app_one)
           (mkTable [row_4; mkItem 2 "Species_9" 0.88 101] 2) eq_refl).
  repeat constructor.
Defined.

(** ** Ids over many saves *)

Lemma savePrediction_db (s : App) (name : string) (c : Q) (io : SaveIO)
    (t : Table) :
  db s = Some t ->
  db (exec (savePrediction (Some name) c io) s)
  = if insert_fails io then Some t
    else Some (mkTable
                 (rows t ++ [mkItem (SQLite.next_rowid t) name c (now io)])
                 (SQLite.next_rowid t)).
Proof.
  intros Hdb. unfold exec. rewrite savePrediction_run, Hdb.
  unfold SQLite.runSync_insert. destruct (insert_fails io); [reflexivity|].
  rewrite loadHistory_run. simpl.
  destruct (SQLite.getAllSync_recent _ _); reflexivity.
Qed.

(** X4.  Over a well-formed table, any sequence of saves, refused ones
    included, leaves the old rows in place followed by one row per accepted
    save, in the order of the saves, each with its label, confidence and
    clock reading; the new ids are consecutive from the high-water mark on,
    so a refused save uses up no id. *)
Theorem save_each_consecutive_ids (l : list (string * Q * SaveIO)) :
  forall (s : App) (t : Table),
    db s = Some t -> wf_table t ->
    exists added,
      db (save_each l s)
      = Some (mkTable (rows t ++ added)
                      (seq t + Z.of_nat (List.length added))) /\
      map id added
      = map (fun k => seq t + 1 + Z.of_nat k)
            (List.seq 0 (List.length added)) /\
      map (fun r => (item_species r, item_confidence r, timestamp r)) added
      = map (fun x => (fst (fst x), snd (fst x), now (snd x))) (accepted l).
Proof.
  induction l as [|[[name c] io] l IH]; intros s t Hdb Hwf.
  - exists []. simpl. rewrite app_nil_r, Z.add_0_r.
    destruct t. repeat split. exact Hdb.
  - unfold save_each in *. simpl.
    pose proof (savePrediction_db s name c io t Hdb) as Hstep.
    unfold accepted; simpl.
    destruct (insert_fails io) eqn:Hins; simpl.
    + apply (IH _ t Hstep Hwf).
    + rewrite (next_rowid_wf t Hwf) in Hstep.
      destruct (IH _ _ Hstep (insert_preserves_wf t name c (now io) Hwf))
        as (added & Hdb' & Hids & Hvals).
      simpl in Hdb', Hids.
      exists (mkItem (seq t + 1) name c (now io) :: added).
      split; [|split].
      * rewrite Hdb', <- app_assoc. simpl. do 2 f_equal. lia.
      * simpl. rewrite Hids, <- seq_shift, map_map.
        f_equal; [lia|]. apply map_ext. intros k. lia.
      * simpl. f_equal. exact Hvals.
Qed.

Lemma save_each_consecutive_ids_witness :
  db app_one = store_one /\ wf_db store_one /\
  exists added,
    db (save_each [("Species_9", 0.88%Q, io_next_second);
                   ("Species_2", 0.90%Q, io_insert_fails);
                   ("Species_3", 0.86%Q, io_next_second)] app_one)
    = Some (mkTable ([row_4] ++ added) (1 + Z.of_nat (List.length added))) /\
    map id added = [2; 3].
Proof.
  split; [reflexivity|]. split; [exact wf_store_one|].
  destruct (save_each_consecutive_ids
              [("Species_9", 0.88%Q, io_next_second);
               ("Species_2", 0.90%Q, io_insert_fails);
               ("Species_3", 0.86%Q, io_next_second)]
              app_one (mkTable [row_4] 1) eq_refl wf_store_one)
    as (added & Hdb & Hids & Hvals).
  exists added. split; [exact Hdb|].
  assert (Hlen : List.length added = 2%nat).
  { apply (f_equal (@List.length _)) in Hvals.
    rewrite !length_map in Hvals. exact Hvals. }
  rewrite Hids, Hlen. reflexivity.
Defined.

(** X5.  Ids are not reused after the history was cleared: when the DELETE
    and a following INSERT both succeed over a well-formed table, the table
    holds the saved row alone, and its id is above the id of every row that
    was deleted. *)
Theorem ids_not_reused_after_clear (s : App) (t : Table) (name : string)
    (c : Q) (io : SaveIO)
    (Hdb : db s = Some t) (Hwf : wf_table t)
    (Hins : insert_fails io = false) :
  db (exec (savePrediction (Some name) c io)
        (exec (clearHistory_onPress false) s))
  = Some (mkTable [mkItem (seq t + 1) name c (now io)] (seq t + 1)) /\
  Forall (fun r => id r < seq t + 1) (rows t).
Proof.
  split.
  - assert (Hcleared :
      db (exec (clearHistory_onPress false) s) = Some (mkTable [] (seq t))).
    { unfold exec. rewrite clearHistory_onPress_run, Hdb. reflexivity. }
    rewrite (savePrediction_db _ name c io _ Hcleared), Hins.
    unfold SQLite.next_rowid; simpl.
    destruct Hwf as (_ & _ & Hseq).
    rewrite Z.max_l by lia. reflexivity.
  - destruct Hwf as (_ & Hids & _).
    eapply Forall_impl; [|exact Hids]. simpl; intros; lia.
Qed.

Lemma ids_not_reused_after_clear_witness :
  db (exec (savePrediction (Some "Species_9") 0.88 io_next_second)
        (exec (clearHistory_onPress false) app_one))
  = Some (mkTable [mkItem 2 "Species_9" 0.88 101] 2).
Proof.
  apply (ids_not_reused_after_clear app_one (mkTable [row_4] 1) "Species_9"
           0.88 io_next_second eq_refl wf_store_one eq_refl).
Defined.

(** ** One run of the pipeline *)

Ltac settle_engine :=
  repeat match goal with
         | |- context [SQLite.runSync_insert ?f ?ts ?sp ?c ?d] =>
             destruct (SQLite.runSync_insert f ts sp c d); run_pipeline
         | |- context [SQLite.getAllSync_recent ?g ?d] =>
             destruct (SQLite.getAllSync_recent g d); run_pipeline
         end.

(** X6.  From the moment an image is there, [pickImage] and [takePicture]
    are the same computation: for the same image, draws, clock and engine
    outcomes they leave the same state. *)
Theorem acquisition_sources_agree (s : App) (uri : string)
    (others : list string) (d : Draws) (io : SaveIO)
    (Huri : truthy uri = true) :
  exec (pickImage_resume (PickerResolves false (Some (uri :: others))) d io) s
  = exec (takePicture_resume (CameraResolves (Some uri)) d io) s.
Proof.
  destruct s; run_pipeline. rewrite Huri.
  unfold simulateInference; run_pipeline.
  settle_engine; reflexivity.
Qed.

Lemma acquisition_sources_agree_witness :
  exec (pickImage_resume (PickerResolves false (Some ["file:///leaf.jpg"]))
          draws_wrap io_next_second) app_one
  = exec (takePicture_resume (CameraResolves (Some "file:///leaf.jpg"))
            draws_wrap io_next_second) app_one.
Proof.
  apply (acquisition_sources_agree app_one "file:///leaf.jpg" [] draws_wrap
           io_next_second eq_refl).
Defined.

(** X7.  A run stores at most one row, and only the top prediction: after
    [takePicture] or [pickImage] has settled, the database is either as
    before, or the old table followed by a single row that carries the first
    label, the first confidence and the clock reading. *)
Theorem run_stores_top_prediction_only (s : App) (d : Draws) (io : SaveIO) :
  (forall cam,
     stores_at_most_top s (exec (takePicture_resume cam d io) s) d io) /\
  (forall pick,
     stores_at_most_top s (exec (pickImage_resume pick d io) s) d io).
Proof.
  unfold stores_at_most_top.
  assert (Hsave : forall s0,
    db (exec (savePrediction (SPECIES_NAMES_at (randomIndex d))
                (confidence1 d) io) s0) = db s0 \/
    exists t name,
      db s0 = Some t /\
      SPECIES_NAMES_at (randomIndex d) = Some name /\
      db (exec (savePrediction (SPECIES_NAMES_at (randomIndex d))
                  (confidence1 d) io) s0)
      = Some (mkTable
                (rows t ++ [mkItem (SQLite.next_rowid t) name (confidence1 d)
                              (now io)])
                (SQLite.next_rowid t))).
  { intros s0. unfold exec. rewrite savePrediction_run.
    unfold SQLite.runSync_insert.
    destruct (insert_fails io); [left; reflexivity|].
    destruct (db s0) as [t|] eqn:Hdb; [|left; simpl; auto].
    destruct (SPECIES_NAMES_at (randomIndex d)) as [name|];
      [|left; simpl; auto].
    right. exists t, name. split; [reflexivity|]. split; [reflexivity|].
    rewrite loadHistory_run. simpl.
    destruct (SQLite.getAllSync_recent _ _); reflexivity. }
  assert (Hidentify : forall s0 uri loading,
    db (exec (identify classifier uri d io ;; setIsLoading loading) s0)
    = db (exec (savePrediction (SPECIES_NAMES_at (randomIndex d))
                  (confidence1 d) io)
            (exec (setCapturedImage (Some uri) ;;
                   setPredictions (Some (simulateInference d))) s0))).
  { intros s0 uri loading. destruct s0; run_pipeline.
    unfold simulateInference; run_pipeline. settle_engine; reflexivity. }
  assert (Hframe : forall s0 uri,
    db (exec (setCapturedImage (Some uri) ;;
              setPredictions (Some (simulateInference d))) s0) = db s0).
  { intros s0 uri. destruct s0; reflexivity. }
  assert (Hcam : forall uri, truthy uri = true ->
    db (exec (takePicture_resume (CameraResolves (Some uri)) d io) s)
    = db (exec (identify classifier uri d io ;; setIsLoading false) s)).
  { intros uri Huri. destruct s; run_pipeline. rewrite Huri.
    unfold simulateInference; run_pipeline. settle_engine; reflexivity. }
  assert (Hpick : forall uri others,
    db (exec (pickImage_resume (PickerResolves false (Some (uri :: others)))
                d io) s)
    = db (exec (identify classifier uri d io ;; setIsLoading false) s)).
  { intros uri others. destruct s; run_pipeline.
    unfold simulateInference; run_pipeline. settle_engine; reflexivity. }
  assert (Hrun : forall uri,
    let s1 := exec (identify classifier uri d io ;; setIsLoading false) s in
    db s1 = db s \/
    exists t name,
      db s = Some t /\
      SPECIES_NAMES_at (randomIndex d) = Some name /\
      db s1
      = Some (mkTable
                (rows t ++ [mkItem (SQLite.next_rowid t) name (confidence1 d)
                              (now io)])
                (SQLite.next_rowid t))).
  { intros uri s1. unfold s1. rewrite Hidentify.
    destruct (Hsave (exec (setCapturedImage (Some uri) ;;
                           setPredictions (Some (simulateInference d))) s))
      as [Hsame|(t & name & Hdb & Hname & Hnew)].
    - left. rewrite Hsame. apply Hframe.
    - right. exists t, name. rewrite Hframe in Hdb. auto. }
  split; [intros cam | intros pick].
  - destruct cam as [|[uri|]].
    + left. destruct s; reflexivity.
    + destruct (truthy uri) eqn:Huri.
      * rewrite (Hcam uri Huri). apply Hrun.
      * left. destruct s; run_pipeline. rewrite Huri. reflexivity.
    + left. destruct s; reflexivity.
  - destruct pick as [|[] [[|uri others]|]];
      try (left; destruct s; reflexivity).
    rewrite Hpick. apply Hrun.
Qed.

(** X8.  Whatever the camera answers and whatever the classifier and the
    engine do, [takePicture] ends with the loading flag down once the camera
    call has settled. *)
Theorem takePicture_lowers_loading
    (classify : Draws -> Result (list Prediction)) (s : App)
    (cam : CameraOutcome) (d : Draws) (io : SaveIO) :
  isLoading (exec (takePicture_resume_with classify cam d io) s) = false.
Proof.
  destruct s, cam as [|[uri|]]; run_pipeline; try reflexivity.
  destruct (truthy uri); run_pipeline; try reflexivity.
  destruct (classify d) as [[|p ps]|e]; run_pipeline; try reflexivity.
  settle_engine; reflexivity.
Qed.

(** X9.  A capture that brings no usable photo ends without a word: when
    [takePictureAsync] resolves with no photo, or with an empty uri, the only
    change is the loading flag going down; no classification, no INSERT, no
    alert, no console entry.  When it rejects, the same holds except that the
    failure is logged and shown as 'Failed to capture image'. *)
Theorem takePicture_without_photo
    (classify : Draws -> Result (list Prediction)) (s : App) (d : Draws)
    (io : SaveIO) :
  exec (takePicture_resume_with classify (CameraResolves None) d io) s
  = mkApp (permission s) (model s) (predictions s) false (activeTab s)
      (history s) (capturedImage s) (db s) (trace s) /\
  exec (takePicture_resume_with classify (CameraResolves (Some "")) d io) s
  = mkApp (permission s) (model s) (predictions s) false (activeTab s)
      (history s) (capturedImage s) (db s) (trace s) /\
  exec (takePicture_resume_with classify CameraRejects d io) s
  = mkApp (permission s) (model s) (predictions s) false (activeTab s)
      (history s) (capturedImage s) (db s)
      (trace s ++ [ConsoleError "Capture error:" CameraFailure;
                   AlertShown "Error" "Failed to capture image"]).
Proof.
  destruct s; run_pipeline. repeat split.
  rewrite <- ?app_assoc. reflexivity.
Qed.

(** X10.  When the picker rejects, or resolves uncancelled without an asset
    list, [pickImage] logs the error and shows 'Failed to pick image'; every
    state cell, the loading flag included, and the database stay as they
    were. *)
Theorem pickImage_failure_reported
    (classify : Draws -> Result (list Prediction)) (s : App) (d : Draws)
    (io : SaveIO) :
  exec (pickImage_resume_with classify PickerRejects d io) s
  = stored s (db s) (history s)
      [ConsoleError "Image picker error:" PickerFailure;
       AlertShown "Error" "Failed to pick image"] /\
  exec (pickImage_resume_with classify (PickerResolves false None) d io) s
  = stored s (db s) (history s)
      [ConsoleError "Image picker error:" TypeError;
       AlertShown "Error" "Failed to pick image"].
Proof.
  destruct s; unfold stored; run_pipeline.
  rewrite <- ?app_assoc. split; reflexivity.
Qed.

(** X11.  [takePicture] asks the camera exactly when the permission is
    granted, the camera tab is active and the model is loaded: then it raises
    the loading flag and calls [takePictureAsync].  In every other state it
    shows 'Camera not ready' and does nothing else, whatever camera,
    classifier and engine would have answered. *)
Theorem takePicture_camera_ready
    (classify : Draws -> Result (list Prediction)) (s : App) :
  (permission s = Some true -> activeTab s = camera -> model s = true ->
   takePicture_begin s
   = (Ok true,
      mkApp (permission s) (model s) (predictions s) true (activeTab s)
        (history s) (capturedImage s) (db s)
        (trace s ++ [TakePictureAsync]))) /\
  (permission s <> Some true \/ activeTab s <> camera \/ model s = false ->
   forall cam d io,
     takePicture_with classify cam d io s
     = (Ok tt,
        stored s (db s) (history s) [AlertShown "Error" "Camera not ready"])).
Proof.
  destruct s as [p m pr l a h c db0 tr]; unfold stored; simpl. split.
  - intros -> -> ->. unfold takePicture_begin, cameraRef_current, render.
    run. rewrite andb_false_r. run.
    rewrite <- ?app_assoc. reflexivity.
  - intros Hnot cam d io.
    assert (Hguard : negb (cameraRef_current (mkApp p m pr l a h c db0 tr))
                     || negb m = true).
    { unfold cameraRef_current, render; simpl.
      destruct m; [|apply orb_true_r].
      rewrite andb_false_r.
      destruct p as [[]|]; try reflexivity.
      destruct a; try reflexivity.
      exfalso. destruct Hnot as [H|[H|H]];
        [apply H; reflexivity | apply H; reflexivity | discriminate H]. }
    unfold takePicture_with, takePicture_begin, bind, get.
    cbn [model]. rewrite Hguard. run.
    rewrite <- ?app_assoc. reflexivity.
Qed.



(** ** Invariants of the event system *)

Lemma takePicture_begin_frame (s : App) :
  exists loading es,
    snd (takePicture_begin s)
    = mkApp (permission s) (model s) (predictions s) loading (activeTab s)
        (history s) (capturedImage s) (db s) (trace s ++ es).
Proof.
  destruct s; unfold takePicture_begin; run.
  match goal with
  | |- context [cameraRef_current ?s0] => destruct (cameraRef_current s0)
  end; destruct model0; run; do 2 eexists; reflexivity.
Qed.

(** What a settled run leaves: either the predictions of this run on the
    Results tab, or predictions and tab as they were. *)
Lemma settled_run_shape (s s' : App) (d : Draws) (io : SaveIO) :
  (exists cam, s' = exec (takePicture_resume cam d io) s) \/
  (exists pick, s' = exec (pickImage_resume pick d io) s) ->
  model s' = model s /\ permission s' = permission s /\
  ((predictions s' = Some (simulateInference d) /\ activeTab s' = results) \/
   (predictions s' = predictions s /\ activeTab s' = activeTab s)).
Proof.
  intros [[cam ->]|[pick ->]].
  - destruct s, cam as [|[uri|]]; run_pipeline;
      try (repeat split; right; split; reflexivity).
    destruct (truthy uri); run_pipeline;
      try (repeat split; right; split; reflexivity).
    unfold simulateInference; run_pipeline.
    settle_engine; repeat split; left; split; reflexivity.
  - destruct s, pick as [|[] [[|uri others]|]]; run_pipeline;
      try (repeat split; right; split; reflexivity).
    unfold simulateInference; run_pipeline.
    settle_engine; repeat split; left; split; reflexivity.
Qed.

Lemma selectTab_shape (s : App) (t : Tab) (fails : bool) :
  exists h es,
    exec (selectTab t fails) s
    = mkApp (permission s) (model s) (predictions s) (isLoading s) t h
        (capturedImage s) (db s) (trace s ++ es).
Proof.
  destruct s; unfold selectTab; run.
  destruct (tab_eqb activeTab0 t); run.
  - exists history0, []. rewrite app_nil_r. reflexivity.
  - destruct t; run;
      try (exists history0, []; rewrite app_nil_r; reflexivity).
    destruct (SQLite.getAllSync_recent _ _); run;
      do 2 eexists; rewrite <- ?app_assoc; reflexivity.
Qed.

Lemma dispatch_results_need_predictions (e : Event) (y : Sys) :
  results_need_predictions (app y) ->
  results_need_predictions (app (dispatch e y)).
Proof.
  unfold results_need_predictions. intros Hinv. unfold dispatch.
  destruct (enabled e y) eqn:He; [|exact Hinv].
  destruct e; simpl.
  - destruct (takePicture_begin_frame (app y)) as (loading & es & Hs).
    destruct (takePicture_begin (app y)) as [[[]|] s']; simpl in *;
      subst s'; simpl; exact Hinv.
  - destruct (settled_run_shape (app y) _ d io
                (or_introl (ex_intro _ cam eq_refl)))
      as (_ & _ & [[Hp _]|[Hp Ht]]).
    + intros _. rewrite Hp. discriminate.
    + rewrite Hp, Ht. exact Hinv.
  - destruct (app y); simpl in *. exact Hinv.
  - destruct (settled_run_shape (app y) _ d io
                (or_intror (ex_intro _ pick eq_refl)))
      as (_ & _ & [[Hp _]|[Hp Ht]]).
    + intros _. rewrite Hp. discriminate.
    + rewrite Hp, Ht. exact Hinv.
  - match goal with
    | |- context [selectTab t ?f] =>
        destruct (selectTab_shape (app y) t f) as (h & es & ->)
    end.
    simpl. intros ->. simpl in He.
    unfold results_tab_disabled in He.
    destruct (predictions (app y)); [discriminate|].
    destruct (render (app y)); discriminate He.
  - destruct (app y); simpl. discriminate.
  - destruct (app y); simpl in *. exact Hinv.
  - unfold exec. rewrite clearHistory_onPress_run.
    destruct (SQLite.runSync_delete _ _); simpl; exact Hinv.
  - exact Hinv.
Qed.

(** X13.  The Results tab never shows without predictions: if the tab is
    not 'results' or predictions are held, the same is true after any
    sequence of presses and settled promises. *)
Theorem results_tab_has_predictions (es : list Event) (y : Sys)
    (Hinv : results_need_predictions (app y)) :
  results_need_predictions (app (run_events es y)).
Proof.
  revert y Hinv. induction es as [|e es IH]; intros y Hinv; simpl.
  - exact Hinv.
  - apply IH, dispatch_results_need_predictions, Hinv.
Qed.

Lemma results_tab_has_predictions_witness :
  results_need_predictions
    (app (run_events
            [PressCapture;
             CameraSettles (CameraResolves (Some "file:///leaf.jpg"))
               draws_wrap io_next_second;
             PressTab history_tab false; PressTab results false;
             PressIdentifyAnother; PressTab results false]
            sys_idle)).
Proof.
  apply (results_tab_has_predictions _ sys_idle).
  unfold results_need_predictions. simpl. discriminate.
Defined.

(** X14.  No event of the main screen (capture and gallery presses, settled
    camera and picker promises, tab presses, 'Identify Another', the clear
    dialog) changes the model flag or the camera permission, and among them
    only a settled run or the dialog's 'Clear' can change the database.  The
    'Grant Permission' button of the permission screen sets the permission
    to the answer given and changes nothing else. *)
Theorem events_frame (e : Event) (y : Sys) :
  model (app (dispatch e y)) = model (app y) /\
  permission (app (dispatch e y)) = permission (app y) /\
  (may_write e = false -> db (app (dispatch e y)) = db (app y)) /\
  forall granted s,
    exec (grantPermission granted) s
    = mkApp (Some granted) (model s) (predictions s) (isLoading s)
        (activeTab s) (history s) (capturedImage s) (db s)
        (trace s ++ [RequestPermission]).
Proof.
  assert (Hgrant : forall granted s,
    exec (grantPermission granted) s
    = mkApp (Some granted) (model s) (predictions s) (isLoading s)
        (activeTab s) (history s) (capturedImage s) (db s)
        (trace s ++ [RequestPermission])).
  { intros granted s. destruct s; reflexivity. }
  cut (model (app (dispatch e y)) = model (app y) /\
       permission (app (dispatch e y)) = permission (app y) /\
       (may_write e = false -> db (app (dispatch e y)) = db (app y))).
  { intros (Hm & Hp & Hw).
    split; [exact Hm|]. split; [exact Hp|]. split; [exact Hw | exact Hgrant]. }
  clear Hgrant.
  unfold dispatch. destruct (enabled e y); [|repeat split].
  destruct e; simpl.
  - destruct (takePicture_begin_frame (app y)) as (loading & es & Hs).
    destruct (takePicture_begin (app y)) as [[[]|] s']; simpl in *;
      subst s'; repeat split.
  - destruct (settled_run_shape (app y) _ d io
                (or_introl (ex_intro _ cam eq_refl))) as (Hm & Hp & _).
    repeat split; try assumption. discriminate.
  - destruct (app y); repeat split.
  - destruct (settled_run_shape (app y) _ d io
                (or_intror (ex_intro _ pick eq_refl))) as (Hm & Hp & _).
    repeat split; try assumption. discriminate.
  - match goal with
    | |- context [selectTab t ?f] =>
        destruct (selectTab_shape (app y) t f) as (h & es & ->)
    end. repeat split.
  - destruct (app y); repeat split.
  - destruct (app y); repeat split.
  - unfold exec. rewrite clearHistory_onPress_run.
    destruct (SQLite.runSync_delete _ _); repeat split; discriminate.
  - repeat split.
Qed.

(** ** Tables that can be reached *)

Lemma initializeApp_wf (s : App) (perm : PermissionOutcome)
    (create_fails load_rejects : bool) :
  wf_db (db s) ->
  wf_db (db (exec (initializeApp perm create_fails load_rejects) s)).
Proof.
  intros Hwf.
  assert (Hdb :
    db (exec (initializeApp perm create_fails load_rejects) s) = db s \/
    db (exec (initializeApp perm create_fails load_rejects) s)
    = db (exec (initDatabase create_fails) s)).
  { destruct s as [p m pr l a h c d tr]; run.
    unfold SQLite.execSync_create.
    destruct p as [[]|], perm as [|[]], create_fails, load_rejects, d;
      run; auto. }
  destruct Hdb as [->| ->]; [exact Hwf | apply initDatabase_wf, Hwf].
Qed.

(** X15.  Ids stay unique and ordered for the life of a database file: if
    the table found at start-up is well formed (there is none, or its ids
    are positive, strictly ascending in insertion order and at most the
    high-water mark), so is the table after start-up and any sequence of
    presses and settled promises, whatever fails on the way. *)
Theorem reachable_tables_well_formed (d : Database) (perm : PermissionOutcome)
    (create_fails load_rejects : bool) (es : list Event)
    (Hwf : wf_db d) :
  wf_db
    (db (app (run_events es
                (mkSys (exec (initializeApp perm create_fails load_rejects)
                          (mount d)) 0 0 0)))).
Proof.
  apply run_events_wf. simpl. apply initializeApp_wf. exact Hwf.
Qed.

Lemma reachable_tables_well_formed_witness :
  wf_db store_one /\
  wf_db
    (db (app (run_events
                [PressCapture; PressGallery;
                 PickerSettles (PickerResolves false (Some ["file:///a.jpg"]))
                   draws_wrap io_same_second;
                 CameraSettles (CameraResolves (Some "file:///b.jpg"))
                   draws_wrap io_clock_back]
                (mkSys (exec (initializeApp (PermissionResult true) false
                                false) (mount store_one)) 0 0 0)))).
Proof.
  split; [exact wf_store_one|].
  apply (reachable_tables_well_formed store_one (PermissionResult true)
           false false _ wf_store_one).
Defined.

(** ** The History screen *)

Lemma tab_eqb_eq (a b : Tab) : tab_eqb a b = true -> a = b.
Proof. destruct a, b; simpl; intros H; try reflexivity; discriminate H. Qed.

Lemma settled_run_in_sync (s s' : App) (d : Draws) (io : SaveIO) :
  (exists cam, s' = exec (takePicture_resume cam d io) s) \/
  (exists pick, s' = exec (pickImage_resume pick d io) s) ->
  select_fails io = false ->
  history_in_sync s -> history_in_sync s'.
Proof.
  assert (Hrun : forall p m pr l a h c d0 tr uri l',
    history_in_sync (mkApp p m pr l a h c d0 tr) ->
    select_fails io = false ->
    history_in_sync
      (exec (identify classifier uri d io ;; setIsLoading false)
         (mkApp p m pr l' a h c d0 tr))).
  { intros p m pr l a h c d0 tr uri l' Hinv Hsel.
    unfold history_in_sync in *; simpl in Hinv. run_pipeline.
    unfold simulateInference; run_pipeline.
    unfold SQLite.runSync_insert. destruct (insert_fails io); run_pipeline.
    - destruct d0; [discriminate | exact Hinv].
    - destruct d0 as [t|]; run_pipeline; [|exact Hinv].
      destruct (SPECIES_NAMES_at (randomIndex d)); run_pipeline;
        [|discriminate].
      unfold SQLite.getAllSync_recent. rewrite Hsel. run_pipeline.
      discriminate. }
  intros [[cam ->]|[pick ->]] Hsel Hinv.
  - destruct s as [p m pr l a h c d0 tr], cam as [|[uri|]];
      try exact Hinv.
    destruct (truthy uri) eqn:Huri.
    + replace (exec (takePicture_resume (CameraResolves (Some uri)) d io)
                 (mkApp p m pr l a h c d0 tr))
        with (exec (identify classifier uri d io ;; setIsLoading false)
                (mkApp p m pr l a h c d0 tr)).
      * apply (Hrun p m pr l a h c d0 tr uri l Hinv Hsel).
      * run_pipeline. rewrite Huri. unfold simulateInference; run_pipeline.
        settle_engine; reflexivity.
    + unfold history_in_sync in *. run_pipeline. rewrite Huri.
      run_pipeline. exact Hinv.
  - destruct s as [p m pr l a h c d0 tr],
      pick as [|[] [[|uri others]|]]; try exact Hinv.
    replace (exec (pickImage_resume
                     (PickerResolves false (Some (uri :: others))) d io)
               (mkApp p m pr l a h c d0 tr))
      with (exec (identify classifier uri d io ;; setIsLoading false)
              (mkApp p m pr true a h c d0 tr)).
    + apply (Hrun p m pr l a h c d0 tr uri true Hinv Hsel).
    + run_pipeline. unfold simulateInference; run_pipeline.
      settle_engine; reflexivity.
Qed.

Lemma dispatch_history_in_sync (e : Event) (y : Sys) :
  selects_succeed e = true ->
  history_in_sync (app y) -> history_in_sync (app (dispatch e y)).
Proof.
  intros Hsel Hinv. unfold dispatch.
  destruct (enabled e y); [|exact Hinv].
  destruct e; simpl in *.
  - destruct (takePicture_begin_frame (app y)) as (loading & es & Hs).
    destruct (takePicture_begin (app y)) as [[[]|] s']; simpl in *;
      subst s'; exact Hinv.
  - apply (settled_run_in_sync (app y) _ d io
             (or_introl (ex_intro _ cam eq_refl)));
      [destruct (select_fails io); [discriminate|reflexivity] | exact Hinv].
  - destruct (app y); exact Hinv.
  - apply (settled_run_in_sync (app y) _ d io
             (or_intror (ex_intro _ pick eq_refl)));
      [destruct (select_fails io); [discriminate|reflexivity] | exact Hinv].
  - destruct select_fails0; [discriminate|].
    destruct (app y) as [p m pr l a h c d0 tr].
    unfold history_in_sync in *; simpl in Hinv.
    unfold selectTab; run.
    destruct (tab_eqb a t) eqn:Ht; run.
    + apply tab_eqb_eq in Ht. subst t. exact Hinv.
    + destruct t; run.
      * destruct d0; [discriminate | exact Hinv].
      * destruct d0; [discriminate | exact Hinv].
      * unfold SQLite.getAllSync_recent.
        destruct d0 as [t|]; run; [intros _; reflexivity | exact Hinv].
  - destruct (app y) as [p m pr l a h c d0 tr].
    unfold history_in_sync in *; simpl in *.
    destruct d0; [discriminate | exact Hinv].
  - destruct (app y); exact Hinv.
  - destruct (app y) as [p m pr l a h c d0 tr].
    unfold history_in_sync in *; simpl in Hinv. run.
    unfold SQLite.runSync_delete.
    destruct delete_fails; run; [exact Hinv|].
    destruct d0; run; [intros _; reflexivity | exact Hinv].
  - exact Hinv.
Qed.

(** X16.  As long as every SELECT is answered, the History tab is never
    stale: if it shows the first 20 rows of the newest-first query (nothing,
    while there is no table) whenever it is the active tab, it still does
    after any sequence of presses and settled promises, failed INSERTs and
    DELETEs included. *)
Theorem history_tab_in_sync (es : list Event) (y : Sys)
    (Hsel : forallb selects_succeed es = true)
    (Hinv : history_in_sync (app y)) :
  history_in_sync (app (run_events es y)).
Proof.
  revert y Hinv. induction es as [|e es IH]; intros y Hinv; simpl in *.
  - exact Hinv.
  - apply andb_prop in Hsel. destruct Hsel as [He Hes].
    apply (IH Hes), dispatch_history_in_sync; assumption.
Qed.

Lemma history_tab_in_sync_witness :
  history_in_sync
    (app (run_events
            [PressTab history_tab false; PressGallery;
             PickerSettles (PickerResolves false (Some ["file:///a.jpg"]))
               draws_wrap io_next_second;
             PressTab history_tab false; PressClear; AnswerClear true]
            sys_idle)).
Proof.
  apply (history_tab_in_sync
           [PressTab history_tab false; PressGallery;
            PickerSettles (PickerResolves false (Some ["file:///a.jpg"]))
              draws_wrap io_next_second;
            PressTab history_tab false; PressClear; AnswerClear true]
           sys_idle eq_refl).
  unfold history_in_sync. simpl. discriminate.
Defined.

(** ** Start-up from any state *)

(** X17.  Whatever happens during start-up, [initializeApp] ends with the
    loading flag down, so the loading screen is not what is rendered
    afterwards; and the model flag ends up raised exactly when it was raised
    already, or the permission is held or gets granted and the model load
    does not reject.  The outcome of the schema step plays no part. *)
Theorem initializeApp_ends_loading (s : App) (perm : PermissionOutcome)
    (create_fails load_rejects : bool) :
  isLoading (exec (initializeApp perm create_fails load_rejects) s) = false /\
  render (exec (initializeApp perm create_fails load_rejects) s)
    <> LoadingModel /\
  model (exec (initializeApp perm create_fails load_rejects) s)
  = model s
    || (negb load_rejects
        && (permission_granted s
            || match perm with
               | PermissionResult true => true
               | _ => false
               end)).
Proof.
  assert (H :
    isLoading (exec (initializeApp perm create_fails load_rejects) s) = false
    /\ model (exec (initializeApp perm create_fails load_rejects) s)
       = model s
         || (negb load_rejects
             && (permission_granted s
                 || match perm with
                    | PermissionResult true => true
                    | _ => false
                    end))).
  { destruct s as [p m pr l a h c d tr]. unfold permission_granted; simpl.
    destruct p as [[]|], perm as [|[]], create_fails, load_rejects, d, m;
      split; reflexivity. }
  destruct H as [Hload Hmodel]. split; [exact Hload|]. split; [|exact Hmodel].
  unfold render. rewrite Hload. simpl.
  destruct (permission _) as [[]|]; discriminate.
Qed.

(** X18.  When the permission is already held, [initializeApp] does not ask
    for it: the answer a request would get makes no difference to the state
    it leaves, and the first call it makes is the schema creation. *)
Theorem initializeApp_permission_held (s : App) (perm : PermissionOutcome)
    (create_fails load_rejects : bool)
    (Hheld : permission s = Some true) :
  exec (initializeApp perm create_fails load_rejects) s
  = exec (initializeApp PermissionRejects create_fails load_rejects) s /\
  exists es,
    trace (exec (initializeApp perm create_fails load_rejects) s)
    = (trace s ++ ExecSync_CreateTable :: es)%list /\
    ~ In RequestPermission es.
Proof.
  destruct s as [p m pr l a h c d tr]; simpl in Hheld; subst p.
  split.
  - destruct perm as [|[]]; reflexivity.
  - destruct perm as [|[]], create_fails, load_rejects, d;
      run; unfold SQLite.execSync_create; run; rewrite <- ?app_assoc;
      simpl; eexists; (split; [reflexivity|]); simpl;
      intuition discriminate.
Qed.

Lemma initializeApp_permission_held_witness :
  permission app_one = Some true /\
  exec (initializeApp (PermissionResult false) false false) app_one
  = exec (initializeApp PermissionRejects false false) app_one.
Proof.
  split; [reflexivity|].
  apply (initializeApp_permission_held app_one (PermissionResult false)
           false false eq_refl).
Defined.

(** ** Tabs *)

(** X19.  Pressing a tab twice is the same as pressing it once: the second
    press finds the tab already active, so the effect on [activeTab] does
    not run again and the history is not reloaded. *)
Theorem selectTab_twice (s : App) (t : Tab) (fails1 fails2 : bool) :
  exec (selectTab t fails2) (exec (selectTab t fails1) s)
  = exec (selectTab t fails1) s.
Proof.
  destruct (selectTab_shape s t fails1) as (h & es & ->).
  unfold selectTab; run. destruct t; reflexivity.
Qed.

(** ** Storage without a table *)



(** ** After a denied permission *)

(** X21.  A start-up that stopped at a denied permission is not run again
    when the user grants the permission from the permission screen: the main
    screen comes up on the camera tab with the model never loaded and the
    database untouched.  There [takePicture] only answers 'Camera not
    ready', while [pickImage] classifies the picked image and shows the
    Results screen; without a table nothing is stored. *)
Theorem pipeline_after_denied_permission (d : Database)
    (create_fails load_rejects : bool) (uri : string) (others : list string)
    (dr : Draws) (io : SaveIO) :
  render (denied_then_granted d create_fails load_rejects) = Main camera /\
  model (denied_then_granted d create_fails load_rejects) = false /\
  db (denied_then_granted d create_fails load_rejects) = d /\
  (forall cam,
     exec (takePicture cam dr io)
       (denied_then_granted d create_fails load_rejects)
     = stored (denied_then_granted d create_fails load_rejects) d []
         [AlertShown "Error" "Camera not ready"]) /\
  predictions
    (exec (pickImage (PickerResolves false (Some (uri :: others))) dr io)
       (denied_then_granted d create_fails load_rejects))
  = Some (simulateInference dr) /\
  results_shown
    (exec (pickImage (PickerResolves false (Some (uri :: others))) dr io)
       (denied_then_granted d create_fails load_rejects)) = true /\
  (d = None ->
   db (exec (pickImage (PickerResolves false (Some (uri :: others))) dr io)
         (denied_then_granted d create_fails load_rejects)) = None).
Proof.
  unfold denied_then_granted, grantPermission.
  split; [reflexivity|]. split; [reflexivity|]. split; [reflexivity|].
  split; [intros cam; reflexivity|].
  assert (Hshape : forall s,
    permission s = Some true ->
    predictions
      (exec (pickImage (PickerResolves false (Some (uri :: others))) dr io) s)
    = Some (simulateInference dr) /\
    results_shown
      (exec (pickImage (PickerResolves false (Some (uri :: others))) dr io) s)
    = true).
  { intros s Hperm. destruct s; simpl in Hperm; subst.
    unfold results_shown, render. run_pipeline.
    unfold simulateInference; run_pipeline.
    settle_engine; split; reflexivity. }
  split; [apply Hshape; reflexivity|].
  split; [apply Hshape; reflexivity|].
  intros ->. run_pipeline. unfold simulateInference; run_pipeline.
  unfold SQLite.runSync_insert. destruct (insert_fails io); reflexivity.
Qed.

(** ** What a run shows *)

(** X22.  A run that got an image always ends showing its own result,
    whatever was shown before and whether or not the save went through:
    after [takePicture] has a photo with a uri, or [pickImage] a picked
    asset, the predictions held are those of this run, the image is this
    run's, the Results tab is active and the loading flag is down.  So of
    two runs in flight, the one that settles last decides what is shown. *)
Theorem run_shows_its_own_result (s : App) (uri : string)
    (others : list string) (d : Draws) (io : SaveIO) :
  (truthy uri = true ->
   predictions (exec (takePicture_resume (CameraResolves (Some uri)) d io) s)
     = Some (simulateInference d) /\
   capturedImage
     (exec (takePicture_resume (CameraResolves (Some uri)) d io) s)
     = Some uri /\
   activeTab (exec (takePicture_resume (CameraResolves (Some uri)) d io) s)
     = results /\
   isLoading (exec (takePicture_resume (CameraResolves (Some uri)) d io) s)
     = false) /\
  predictions
    (exec (pickImage_resume (PickerResolves false (Some (uri :: others))) d io)
       s) = Some (simulateInference d) /\
  capturedImage
    (exec (pickImage_resume (PickerResolves false (Some (uri :: others))) d io)
       s) = Some uri /\
  activeTab
    (exec (pickImage_resume (PickerResolves false (Some (uri :: others))) d io)
       s) = results /\
  isLoading
    (exec (pickImage_resume (PickerResolves false (Some (uri :: others))) d io)
       s) = false.
Proof.
  destruct s. split.
  - intros Huri. run_pipeline. rewrite Huri.
    unfold simulateInference; run_pipeline.
    settle_engine; repeat split.
  - run_pipeline. unfold simulateInference; run_pipeline.
    settle_engine; repeat split.
Qed.
